(** * GoldBook trading journal: [app.py]

    A shallow embedding of [compute_stats], of the body of [api_stats]
    (equity curve, calendar, hour and weekday heat maps, per-pair table,
    monthly table), and of the handlers that write the store ([login],
    [register], [logout], [api_register], [sync_trades]), with the
    properties of the code proved against it.

    Conventions of the embedding.
    - Python numbers (SQLite [REAL] columns, counters) are exact rationals
      [Q]; counters that the code keeps as [int] are [nat].  Binary
      rounding error of float arithmetic, infinities and NaN are not
      modelled; the decimal rounding that the code asks for with
      [round(x, n)] is.  A sum of floats is its exact sum here.
    - Python [dict]s with string keys are [gmap string _].
    - Nullable [TEXT] columns are [option string]; strings are byte
      strings, and the character classes of [strptime] and [str.strip]
      are the ASCII ones.
    - Code that can raise returns in the monad [exc]; [try: ... except: pass]
      is [try_pass]. *)

From Stdlib Require Import ZArith QArith Qround Qabs Qreduction Qpower.
From Stdlib Require Import String Ascii DecimalString List Bool Lia Lqa.
From stdpp Require Import base option gmap strings.
Import ListNotations.

Local Open Scope Q_scope.

(** ** Exceptions *)

Inductive exn : Type :=
  | ZeroDivisionError
  | StatisticsError
  | ValueError
  | KeyError
  | IndexError
  | AttributeError
  | OverflowError.

Inductive exc (A : Type) : Type :=
  | Ok (a : A)
  | Raise (e : exn).
Arguments Ok {A} a.
Arguments Raise {A} e.

#[global] Instance exc_ret : MRet exc := fun _ a => Ok a.
#[global] Instance exc_bind : MBind exc := fun _ _ f c =>
  match c with
  | Ok a => f a
  | Raise e => Raise e
  end.

(** [try: body  except: pass] around a state update: when [body] raises,
    the state is left as it was. *)
Definition try_pass {S : Type} (s : S) (body : exc S) : S :=
  match body with
  | Ok s' => s'
  | Raise _ => s
  end.

(** ** Numbers *)

Module Num.

Definition ltb (x y : Q) : bool := negb (Qle_bool y x).
Infix "<?" := ltb (at level 70, no associativity) : Q_scope.

Definition of_nat (n : nat) : Q := inject_Z (Z.of_nat n).

(** [x / y]: raises [ZeroDivisionError] on a zero divisor. *)
Definition div (x y : Q) : exc Q :=
  if Qeq_bool y 0 then Raise ZeroDivisionError else Ok (x / y).
Infix "//" := div (at level 40, left associativity) : Q_scope.

(** The builtin [sum]: left to right, from 0. *)
Definition sum (xs : list Q) : Q := fold_left Qplus xs 0.

(** Nearest integer, ties to the even one. *)
Definition round_half_even (x : Q) : Z :=
  let f := Qfloor x in
  match Qcompare (x - inject_Z f) (1 # 2) with
  | Lt => f
  | Gt => (f + 1)%Z
  | Eq => if Z.even f then f else (f + 1)%Z
  end.

(** The builtin [round(x, ndigits)] for [ndigits >= 0]: the nearest
    multiple of [10^-ndigits], ties to even.  The result is in lowest
    terms, so equal results are equal terms. *)
Definition round (x : Q) (ndigits : nat) : Q :=
  let scale := (10 ^ Z.of_nat ndigits)%Z in
  Qred (round_half_even (x * inject_Z scale) # Z.to_pos scale).

(** [int / int] as a float: the quotient [n / d] ([0 <= n], [0 < d]) to
    53 significant bits, ties to even (exponent range not modelled). *)
Definition float_of_ratio (n d : Z) : Q :=
  if (n =? 0)%Z then 0
  else
    let q := n # Z.to_pos d in
    let e0 := (Z.log2 n - Z.log2 d)%Z in
    let e := if Qle_bool (2 ^ e0) q then e0 else (e0 - 1)%Z in
    Qred (inject_Z (round_half_even (q * 2 ^ (52 - e))) * 2 ^ (e - 52)).

(** [statistics._integer_sqrt_of_frac_rto]: the square root of [n / m]
    rounded to an integer, to odd. *)
Definition integer_sqrt_of_frac_rto (n m : Z) : Z :=
  let a := Z.sqrt (n / m) in
  Z.lor a (if (a * a * m =? n)%Z then 0 else 1).

Definition sqrt_bit_width : Z := 2 * 53 + 3.

Definition bit_length (n : Z) : Z :=
  if (n =? 0)%Z then 0%Z else (Z.log2 (Z.abs n) + 1)%Z.

(** [statistics._float_sqrt_of_frac]: the square root of [n / m] as a
    float, correctly rounded. *)
Definition float_sqrt_of_frac (n m : Z) : Q :=
  let q := ((bit_length n - bit_length m - sqrt_bit_width) / 2)%Z in
  if (0 <=? q)%Z then
    float_of_ratio
      (Z.shiftl (integer_sqrt_of_frac_rto n (Z.shiftl m (2 * q))) q) 1
  else
    float_of_ratio
      (integer_sqrt_of_frac_rto (Z.shiftl n (- 2 * q)) m)
      (Z.shiftl 1 (- q)).

(** [statistics.stdev]: the sample standard deviation, from the exact sum
    of squared deviations; raises [StatisticsError] on fewer than two
    points.  On rationals it returns for every two or more points; on
    floats the library can also raise, on infinite data and on data whose
    squares overflow. *)
Definition stdev (data : list Q) : exc Q :=
  let n := length data in
  if (n <? 2)%nat then Raise StatisticsError
  else
    let sx := sum data in
    let sxx := sum (map (fun x => x * x) data) in
    let ss := sxx - sx * sx / of_nat n in
    let mss := Qred (ss / of_nat (n - 1)) in
    Ok (float_sqrt_of_frac (Qnum mss) (Zpos (Qden mss))).

End Num.
Import Num.
Infix "<?" := Num.ltb (at level 70, no associativity) : Q_scope.
Infix "//" := Num.div (at level 40, left associativity) : Q_scope.

(** ** Rows of the [trades] table, as [dict(row)]

    The text columns the engine tests for truth are nullable; the numeric
    columns hold numbers (a [NULL] profit is not a row of this type). *)

Record Trade : Type := {
  ticket           : option Z;
  pair             : option string;
  trade_type       : option string;
  open_time        : option string;
  close_time       : option string;
  open_price       : Q;
  close_price      : Q;
  sl               : Q;
  tp               : Q;
  lots             : Q;
  profit           : Q;
  commission       : Q;
  swap             : Q;
  duration_minutes : Z
}.

(** The dict returned by [compute_stats] when there are trades. *)
Record Stats : Type := {
  total_trades      : nat;
  win_count         : nat;
  loss_count        : nat;
  win_rate          : Q;
  avg_win           : Q;
  avg_loss          : Q;
  profit_factor     : Q;
  expectancy        : Q;
  sharpe_ratio      : Q;
  max_consec_wins   : nat;
  max_consec_losses : nat;
  total_profit      : Q;
  max_drawdown      : Q;
  gross_profit      : Q;
  gross_loss        : Q
}.

(** ** [compute_stats] *)

(** Loop state of the streak scan. *)
Record Streak : Type := {
  st_max_w : nat;
  st_max_l : nat;
  st_cur_w : nat;
  st_cur_l : nat
}.

Definition streak_init : Streak :=
  {| st_max_w := 0; st_max_l := 0; st_cur_w := 0; st_cur_l := 0 |}.

Definition streak_step (s : Streak) (p : Q) : Streak :=
  if 0 <? p then
    let cur_w := S (st_cur_w s) in
    {| st_max_w := Nat.max (st_max_w s) cur_w; st_max_l := st_max_l s;
       st_cur_w := cur_w; st_cur_l := 0 |}
  else
    let cur_l := S (st_cur_l s) in
    {| st_max_w := st_max_w s; st_max_l := Nat.max (st_max_l s) cur_l;
       st_cur_w := 0; st_cur_l := cur_l |}.

(** Loop state of the drawdown walk. *)
Record Drawdown : Type := {
  dd_peak    : Q;
  dd_max     : Q;
  dd_running : Q
}.

Definition drawdown_init : Drawdown :=
  {| dd_peak := 0; dd_max := 0; dd_running := 0 |}.

Definition drawdown_step (s : Drawdown) (p : Q) : Drawdown :=
  let running := dd_running s + p in
  let peak := if dd_peak s <? running then running else dd_peak s in
  let dd := peak - running in
  let max_dd := if dd_max s <? dd then dd else dd_max s in
  {| dd_peak := peak; dd_max := max_dd; dd_running := running |}.

Definition is_wins (p : Q) : bool := 0 <? p.
Definition is_losses (p : Q) : bool := p <? 0.

(** The empty dict [{}] of the first branch is [None]. *)
Definition compute_stats (trades : list Trade) : exc (option Stats) :=
  match trades with
  | [] => Ok None
  | _ :: _ =>
    let profits := map profit trades in
    let wins := List.filter is_wins profits in
    let losses := List.filter is_losses profits in
    let total := length profits in
    let win_count := length wins in
    let loss_count := length losses in
    win_rate ←
      (if (0 <? total)%nat
       then r ← of_nat win_count // of_nat total; Ok (r * 100)
       else Ok 0);
    avg_win ←
      (match wins with
       | _ :: _ => sum wins // of_nat (length wins)
       | [] => Ok 0
       end);
    avg_loss ←
      (match losses with
       | _ :: _ => sum losses // of_nat (length losses)
       | [] => Ok 0
       end);
    let gross_profit := sum wins in
    let gross_loss := Qabs (sum losses) in
    profit_factor ←
      (if 0 <? gross_loss then gross_profit // gross_loss else Ok 0);
    w ← win_rate // 100;
    let expectancy := w * avg_win + (1 - w) * avg_loss in
    sharpe ←
      (if (1 <? length profits)%nat
       then
         avg_ret ← sum profits // of_nat (length profits);
         std_ret ← stdev profits;
         if 0 <? std_ret then avg_ret // std_ret else Ok 0
       else Ok 0);
    let streak := fold_left streak_step profits streak_init in
    let dd := fold_left drawdown_step profits drawdown_init in
    Ok (Some {|
      total_trades      := total;
      win_count         := win_count;
      loss_count        := loss_count;
      win_rate          := round win_rate 1;
      avg_win           := round avg_win 2;
      avg_loss          := round avg_loss 2;
      profit_factor     := round profit_factor 2;
      expectancy        := round expectancy 2;
      sharpe_ratio      := round sharpe 2;
      max_consec_wins   := st_max_w streak;
      max_consec_losses := st_max_l streak;
      total_profit      := round (sum profits) 2;
      max_drawdown      := round (dd_max dd) 2;
      gross_profit      := round gross_profit 2;
      gross_loss        := round gross_loss 2
    |})
  end.

(** ** Strings and truth values *)

(** [s[:n]] *)
Definition slice_to (n : nat) (s : string) : string := substring 0 n s.

(** Truth value of a string: the empty string is false. *)
Definition nonempty (s : string) : bool :=
  match s with
  | EmptyString => false
  | String _ _ => true
  end.

(** [str(n)] for a non-negative [int]. *)
Definition str (n : nat) : string := NilEmpty.string_of_uint (Nat.to_uint n).

(** ** [datetime.strptime(s, "%Y-%m-%d %H:%M:%S")] *)

Module Strptime.

Definition in_range (lo hi : ascii) (c : ascii) : bool :=
  (nat_of_ascii lo <=? nat_of_ascii c)%nat && (nat_of_ascii c <=? nat_of_ascii hi)%nat.

Definition digit : ascii -> bool := in_range "0" "9".
Definition one (a : ascii) (c : ascii) : bool := Ascii.eqb a c.

(** [\s] on the ASCII range. *)
Definition space (c : ascii) : bool :=
  let n := nat_of_ascii c in
  ((9 <=? n)%nat && (n <=? 13)%nat) || ((28 <=? n)%nat && (n <=? 32)%nat).

(** The pieces of the regular expression the format compiles to: a
    literal character, a group whose alternatives are sequences of
    character classes, and [\s+]. *)
Inductive item : Type :=
  | Lit (c : ascii)
  | Grp (alts : list (list (ascii -> bool)))
  | Spaces.

(** [(?P<Y>\d\d\d\d)] *)
Definition re_Y : item := Grp [[digit; digit; digit; digit]].
(** [(?P<m>1[0-2]|0[1-9]|[1-9])] *)
Definition re_m : item :=
  Grp [[one "1"; in_range "0" "2"]; [one "0"; in_range "1" "9"]; [in_range "1" "9"]].
(** [(?P<d>3[0-1]|[1-2]\d|0[1-9]|[1-9]| [1-9])] *)
Definition re_d : item :=
  Grp [[one "3"; in_range "0" "1"]; [in_range "1" "2"; digit];
       [one "0"; in_range "1" "9"]; [in_range "1" "9"]; [one " "; in_range "1" "9"]].
(** [(?P<H>2[0-3]|[0-1]\d|\d)] *)
Definition re_H : item :=
  Grp [[one "2"; in_range "0" "3"]; [in_range "0" "1"; digit]; [digit]].
(** [(?P<M>[0-5]\d|\d)] *)
Definition re_M : item := Grp [[in_range "0" "5"; digit]; [digit]].
(** [(?P<S>6[0-1]|[0-5]\d|\d)] *)
Definition re_S : item :=
  Grp [[one "6"; in_range "0" "1"]; [in_range "0" "5"; digit]; [digit]].

(** The format ["%Y-%m-%d %H:%M:%S"]. *)
Definition format : list item :=
  [re_Y; Lit "-"; re_m; Lit "-"; re_d; Spaces; re_H; Lit ":"; re_M; Lit ":"; re_S].

(** One alternative: as many characters as it has classes. *)
Fixpoint match_classes (cs : list (ascii -> bool)) (s : string) : option (string * string) :=
  match cs with
  | [] => Some (EmptyString, s)
  | c :: cs' =>
    match s with
    | EmptyString => None
    | String a s' =>
      if c a then
        match match_classes cs' s' with
        | Some (m, rest) => Some (String a m, rest)
        | None => None
        end
      else None
    end
  end.

Section Backtrack.
Context {R : Type}.

(** The first alternative, in order, after which the rest of the
    pattern [k] matches too. *)
Fixpoint first_alt (alts : list (list (ascii -> bool)))
    (k : string -> string -> option R) (s : string) : option R :=
  match alts with
  | [] => None
  | a :: alts' =>
    match match_classes a s with
    | Some (m, rest) =>
      match k m rest with
      | Some r => Some r
      | None => first_alt alts' k s
      end
    | None => first_alt alts' k s
    end
  end.

(** [\s*], greedy: the longest run of spaces after which [k] matches. *)
Fixpoint spaces_star (k : string -> option R) (s : string) : option R :=
  match s with
  | String c s' =>
    if space c then
      match spaces_star k s' with
      | Some r => Some r
      | None => k s
      end
    else k s
  | EmptyString => k s
  end.

Definition spaces_plus (k : string -> option R) (s : string) : option R :=
  match s with
  | String c s' => if space c then spaces_star k s' else None
  | EmptyString => None
  end.
End Backtrack.

(** [re.match]: the groups in order and what is left of the string. *)
Fixpoint re_match (p : list item) (s : string) : option (list string * string) :=
  match p with
  | [] => Some ([], s)
  | Lit c :: p' =>
    match s with
    | String a s' => if Ascii.eqb a c then re_match p' s' else None
    | EmptyString => None
    end
  | Grp alts :: p' =>
    first_alt alts
      (fun m rest =>
         match re_match p' rest with
         | Some (gs, rest') => Some (m :: gs, rest')
         | None => None
         end) s
  | Spaces :: p' => spaces_plus (re_match p') s
  end.

(** [int(s)] on a group: decimal digits, after an optional space. *)
Fixpoint int_of_digits (acc : nat) (s : string) : nat :=
  match s with
  | EmptyString => acc
  | String c s' =>
    if digit c then int_of_digits (10 * acc + (nat_of_ascii c - 48)) s'
    else int_of_digits acc s'
  end.
Definition int (s : string) : nat := int_of_digits 0 s.

Record datetime : Type := {
  year : nat; month : nat; day : nat;
  hour : nat; minute : nat; second : nat
}.

Definition is_leap (y : nat) : bool :=
  ((y mod 4 =? 0) && (negb (y mod 100 =? 0) || (y mod 400 =? 0)))%nat.

Definition days_in_month (y m : nat) : nat :=
  if (m =? 2)%nat && is_leap y then 29
  else nth m [0; 31; 28; 31; 30; 31; 30; 31; 31; 30; 31; 30; 31]%nat 0%nat.

Definition days_before_month (y m : nat) : nat :=
  (nth m [0; 0; 31; 59; 90; 120; 151; 181; 212; 243; 273; 304; 334] 0
   + (if (2 <? m) && is_leap y then 1 else 0))%nat.

Definition days_before_year (y : nat) : nat :=
  let y1 := (y - 1)%nat in
  (y1 * 365 + y1 / 4 - y1 / 100 + y1 / 400)%nat.

Definition toordinal (dt : datetime) : nat :=
  (days_before_year (year dt) + days_before_month (year dt) (month dt) + day dt)%nat.

(** Monday is 0. *)
Definition weekday (dt : datetime) : nat := ((toordinal dt + 6) mod 7)%nat.

(** The constructor's range checks. *)
Definition valid (dt : datetime) : bool :=
  ((1 <=? year dt) && (year dt <=? Z.to_nat 9999) && (1 <=? month dt) && (month dt <=? 12)
   && (1 <=? day dt) && (day dt <=? days_in_month (year dt) (month dt))
   && (hour dt <=? 23) && (minute dt <=? 59) && (second dt <=? 59))%nat.

Definition strptime (s : string) : exc datetime :=
  match re_match format s with
  | Some ([gY; gm; gd; gH; gM; gS], EmptyString) =>
    let dt := {| year := int gY; month := int gm; day := int gd;
                 hour := int gH; minute := int gM; second := int gS |} in
    if valid dt then Ok dt else Raise ValueError
  | _ => Raise ValueError
  end.

End Strptime.
Import Strptime.

(** ** The body of [api_stats] *)

(** Rows of [equity_snapshots]. *)
Record Snapshot : Type := {
  balance       : Q;
  equity        : Q;
  snapshot_time : string
}.

(** One point of the equity curve. *)
Record EquityPoint : Type := {
  ep_time    : string;
  ep_balance : Q;
  ep_equity  : Q
}.

Definition equity_curve_of (snaps : list Snapshot) : list EquityPoint :=
  map (fun s => {| ep_time := snapshot_time s; ep_balance := balance s;
                   ep_equity := equity s |}) snaps.

(** [d[k]]: raises [KeyError] when [k] is not a key. *)
Definition getitem {V : Type} (d : gmap string V) (k : string) : exc V :=
  match d !! k with
  | Some v => Ok v
  | None => Raise KeyError
  end.

(** [l[i]] for [i >= 0]: raises [IndexError] out of range. *)
Definition list_getitem {V : Type} (l : list V) (i : nat) : exc V :=
  match nth_error l i with
  | Some v => Ok v
  | None => Raise IndexError
  end.

(** P&L calendar: one iteration of the loop. *)
Definition cal_step (cal : gmap string Q) (t : Trade) : gmap string Q :=
  let day :=
    match close_time t with
    | Some c => if nonempty c then Some (slice_to 10 c) else None
    | None => None
    end in
  match day with
  | Some day =>
    if nonempty day
    then <[day := round (default 0 (cal !! day) + profit t) 2]> cal
    else cal
  | None => cal
  end.

Definition calendar_of (trades : list Trade) : gmap string Q :=
  fold_left cal_step trades ∅.

(** Hours heat map. *)
Definition hours_init : gmap string Q :=
  list_to_map (map (fun h => (str h, 0)) (seq 0 24)).

Definition hours_step (hours : gmap string Q) (t : Trade) : gmap string Q :=
  match open_time t with
  | Some o =>
    if nonempty o then
      try_pass hours
        (dt ← strptime (slice_to 19 o);
         let h := str (hour dt) in
         v ← getitem hours h;
         Ok (<[h := round (v + profit t) 2]> hours))
    else hours
  | None => hours
  end.

Definition hours_of (trades : list Trade) : gmap string Q :=
  fold_left hours_step trades hours_init.

(** Day of week. *)
Definition day_names : list string :=
  ["Mon"; "Tue"; "Wed"; "Thu"; "Fri"; "Sat"; "Sun"]%string.

Definition days_init : gmap string Q :=
  list_to_map (map (fun d => (d, 0)) day_names).

Definition days_step (days : gmap string Q) (t : Trade) : gmap string Q :=
  match open_time t with
  | Some o =>
    if nonempty o then
      try_pass days
        (dt ← strptime (slice_to 19 o);
         let d := weekday dt in
         name ← list_getitem day_names d;
         v ← getitem days name;
         Ok (<[name := round (v + profit t) 2]> days))
    else days
  | None => days
  end.

Definition days_of (trades : list Trade) : gmap string Q :=
  fold_left days_step trades days_init.

(** By pair. *)
Record PairStat : Type := {
  ps_wins   : nat;
  ps_losses : nat;
  ps_profit : Q
}.

Definition pairs_step (pairs : gmap string PairStat) (t : Trade) : gmap string PairStat :=
  let p :=
    match pair t with
    | Some s => if nonempty s then s else "Unknown"%string
    | None => "Unknown"%string
    end in
  let e := default {| ps_wins := 0; ps_losses := 0; ps_profit := 0 |} (pairs !! p) in
  let e :=
    if 0 <? profit t
    then {| ps_wins := S (ps_wins e); ps_losses := ps_losses e; ps_profit := ps_profit e |}
    else {| ps_wins := ps_wins e; ps_losses := S (ps_losses e); ps_profit := ps_profit e |} in
  <[p := {| ps_wins := ps_wins e; ps_losses := ps_losses e;
            ps_profit := round (ps_profit e + profit t) 2 |}]> pairs.

Definition pairs_of (trades : list Trade) : gmap string PairStat :=
  fold_left pairs_step trades ∅.

(** Monthly P&L. *)
Definition monthly_step (monthly : gmap string Q) (t : Trade) : gmap string Q :=
  match close_time t with
  | Some c =>
    if nonempty c then
      let mon := slice_to 7 c in
      <[mon := round (default 0 (monthly !! mon) + profit t) 2]> monthly
    else monthly
  | None => monthly
  end.

Definition monthly_of (trades : list Trade) : gmap string Q :=
  fold_left monthly_step trades ∅.

(** The JSON object of the response. *)
Record Report : Type := {
  stats        : option Stats;
  equity_curve : list EquityPoint;
  calendar     : gmap string Q;
  hours        : gmap string Q;
  days         : gmap string Q;
  pairs        : gmap string PairStat;
  monthly      : gmap string Q;
  trade_count  : nat
}.

(** [api_stats] from the two fetched row lists on. *)
Definition assemble (trades : list Trade) (snaps : list Snapshot) : exc Report :=
  stats ← compute_stats trades;
  Ok {| stats        := stats;
        equity_curve := equity_curve_of snaps;
        calendar     := calendar_of trades;
        hours        := hours_of trades;
        days         := days_of trades;
        pairs        := pairs_of trades;
        monthly      := monthly_of trades;
        trade_count  := length trades |}.

(** ** The request handler, over the state it can see *)

(** The session cookie and the two tables, each through the query the
    handler runs on it ([ORDER BY] is the store's business). *)
Record World : Type := {
  session_account_id : option Z;
  fetch_trades       : Z -> list Trade;
  fetch_snapshots    : Z -> list Snapshot
}.

Inductive Response : Type :=
  | Unauthorized
  | Json (r : Report).

(** [api_stats]: the response (or the exception that escapes) and the
    state after the request. *)
Definition api_stats (w : World) : exc Response * World :=
  match session_account_id w with
  | Some id =>
    if (id =? 0)%Z then (Ok Unauthorized, w)
    else
      let rows := fetch_trades w id in
      let snaps := fetch_snapshots w id in
      (r ← assemble rows snaps; Ok (Json r), w)
  | None => (Ok Unauthorized, w)
  end.

(** ** Sample rows *)

Definition trade_of_profit (p : Q) : Trade :=
  {| ticket := None; pair := None; trade_type := None;
     open_time := None; close_time := None;
     open_price := 0; close_price := 0; sl := 0; tp := 0; lots := 0;
     profit := p; commission := 0; swap := 0; duration_minutes := 0 |}.

Definition trade_at (o c : string) (p : Q) : Trade :=
  {| ticket := None; pair := Some "XAUUSD"%string; trade_type := Some "buy"%string;
     open_time := Some o; close_time := Some c;
     open_price := 0; close_price := 0; sl := 0; tp := 0; lots := 0;
     profit := p; commission := 0; swap := 0; duration_minutes := 0 |}.

Definition trade_closed (c : string) (p : Q) : Trade :=
  {| ticket := None; pair := None; trade_type := None;
     open_time := None; close_time := Some c;
     open_price := 0; close_price := 0; sl := 0; tp := 0; lots := 0;
     profit := p; commission := 0; swap := 0; duration_minutes := 0 |}.

(** ** Closed forms used in the statements *)

(** The mean of a list, 0 for the empty list. *)
Definition mean0 (l : list Q) : Q :=
  match l with
  | [] => 0
  | _ :: _ => sum l / of_nat (length l)
  end.

(** [x / y] when [y] is positive, 0 otherwise. *)
Definition ratio0 (x y : Q) : Q := if 0 <? y then x / y else 0.

Definition sharpe_of (profits : list Q) : Q :=
  if (1 <? length profits)%nat then
    match stdev profits with
    | Ok sd => ratio0 (sum profits / of_nat (length profits)) sd
    | Raise _ => 0
    end
  else 0.

Definition stats_of (profits : list Q) : Stats :=
  let wins := List.filter is_wins profits in
  let losses := List.filter is_losses profits in
  let w := of_nat (length wins) / of_nat (length profits) * 100 / 100 in
  {| total_trades      := length profits;
     win_count         := length wins;
     loss_count        := length losses;
     win_rate          := round (of_nat (length wins) / of_nat (length profits) * 100) 1;
     avg_win           := round (mean0 wins) 2;
     avg_loss          := round (mean0 losses) 2;
     profit_factor     := round (ratio0 (sum wins) (Qabs (sum losses))) 2;
     expectancy        := round (w * mean0 wins + (1 - w) * mean0 losses) 2;
     sharpe_ratio      := round (sharpe_of profits) 2;
     max_consec_wins   := st_max_w (fold_left streak_step profits streak_init);
     max_consec_losses := st_max_l (fold_left streak_step profits streak_init);
     total_profit      := round (sum profits) 2;
     max_drawdown      := round (dd_max (fold_left drawdown_step profits drawdown_init)) 2;
     gross_profit      := round (sum wins) 2;
     gross_loss        := round (Qabs (sum losses)) 2 |}.

(** ** [compute_stats] over any [stdev] *)

(** [compute_stats] with the call of [statistics.stdev] left open: the same
    body, over any function in its place. *)
Definition compute_stats_with (stdev_fn : list Q -> exc Q) (trades : list Trade)
    : exc (option Stats) :=
  match trades with
  | [] => Ok None
  | _ :: _ =>
    let profits := map profit trades in
    let wins := List.filter is_wins profits in
    let losses := List.filter is_losses profits in
    let total := length profits in
    let win_count := length wins in
    let loss_count := length losses in
    win_rate ←
      (if (0 <? total)%nat
       then r ← of_nat win_count // of_nat total; Ok (r * 100)
       else Ok 0);
    avg_win ←
      (match wins with
       | _ :: _ => sum wins // of_nat (length wins)
       | [] => Ok 0
       end);
    avg_loss ←
      (match losses with
       | _ :: _ => sum losses // of_nat (length losses)
       | [] => Ok 0
       end);
    let gross_profit := sum wins in
    let gross_loss := Qabs (sum losses) in
    profit_factor ←
      (if 0 <? gross_loss then gross_profit // gross_loss else Ok 0);
    w ← win_rate // 100;
    let expectancy := w * avg_win + (1 - w) * avg_loss in
    sharpe ←
      (if (1 <? length profits)%nat
       then
         avg_ret ← sum profits // of_nat (length profits);
         std_ret ← stdev_fn profits;
         if 0 <? std_ret then avg_ret // std_ret else Ok 0
       else Ok 0);
    let streak := fold_left streak_step profits streak_init in
    let dd := fold_left drawdown_step profits drawdown_init in
    Ok (Some {|
      total_trades      := total;
      win_count         := win_count;
      loss_count        := loss_count;
      win_rate          := round win_rate 1;
      avg_win           := round avg_win 2;
      avg_loss          := round avg_loss 2;
      profit_factor     := round profit_factor 2;
      expectancy        := round expectancy 2;
      sharpe_ratio      := round sharpe 2;
      max_consec_wins   := st_max_w streak;
      max_consec_losses := st_max_l streak;
      total_profit      := round (sum profits) 2;
      max_drawdown      := round (dd_max dd) 2;
      gross_profit      := round gross_profit 2;
      gross_loss        := round gross_loss 2
    |})
  end.

(** ** The drawdown as the specification words it *)

Definition qmax (x y : Q) : Q := if x <? y then y else x.

(** The running cumulative profit after [i] trades. *)
Definition running_total (ps : list Q) (i : nat) : Q := sum (firstn i ps).

(** The running peak after [i] trades: the largest cumulative value seen
    so far, starting at 0. *)
Definition running_peak (ps : list Q) (i : nat) : Q :=
  fold_left qmax (map (running_total ps) (seq 1 i)) 0.

(** Peak minus running at step [i]. *)
Definition drawdown_at (ps : list Q) (i : nat) : Q :=
  running_peak ps i - running_total ps i.

(** The largest of these values over the whole sequence. *)
Definition max_drawdown_spec (ps : list Q) : Q :=
  match map (drawdown_at ps) (seq 1 (length ps)) with
  | [] => 0
  | d :: ds => fold_left qmax ds d
  end.

(** ** Buckets as the specification words them *)

(** The calendar key of a trade: the first 10 characters of its
    [close_time]; none when there is no [close_time]. *)
Definition cal_key (t : Trade) : option string :=
  match close_time t with
  | Some c => if nonempty c then Some (slice_to 10 c) else None
  | None => None
  end.

(** The month key: the first 7 characters of [close_time]. *)
Definition month_key (t : Trade) : option string :=
  match close_time t with
  | Some c => if nonempty c then Some (slice_to 7 c) else None
  | None => None
  end.

(** The hour key: the hour of the parsed [open_time]; none when
    [open_time] is missing or does not parse. *)
Definition hour_key (t : Trade) : option string :=
  match open_time t with
  | Some o =>
    if nonempty o then
      match strptime (slice_to 19 o) with
      | Ok dt => Some (str (hour dt))
      | Raise _ => None
      end
    else None
  | None => None
  end.

(** The weekday key: the name of the weekday of the parsed [open_time]. *)
Definition day_key (t : Trade) : option string :=
  match open_time t with
  | Some o =>
    if nonempty o then
      match strptime (slice_to 19 o) with
      | Ok dt => nth_error day_names (weekday dt)
      | Raise _ => None
      end
    else None
  | None => None
  end.

(** The profits that fall into bucket [k], in the order of the trades. *)
Definition contributions (key : Trade -> option string) (k : string)
    (trades : list Trade) : list Q :=
  map profit (List.filter (fun t => bool_decide (key t = Some k)) trades).

(** A running sum rounded to two decimals after every contribution. *)
Definition rounded_sum (start : Q) (ps : list Q) : Q :=
  fold_left (fun acc p => round (acc + p) 2) ps start.

(** A bucket table that grows: a contribution to a new key creates it. *)
Definition bucket_step (key : Trade -> option string)
    (m : gmap string Q) (t : Trade) : gmap string Q :=
  match key t with
  | Some k => <[k := round (default 0 (m !! k) + profit t) 2]> m
  | None => m
  end.

(** A bucket table with fixed slots: a contribution to a key that is not
    there is dropped. *)
Definition slot_step (key : Trade -> option string)
    (m : gmap string Q) (t : Trade) : gmap string Q :=
  match key t with
  | Some k =>
    match m !! k with
    | Some v => <[k := round (v + profit t) 2]> m
    | None => m
    end
  | None => m
  end.

(** The keys of the hours table, written out. *)
Definition hour_names : list string :=
  ["0"; "1"; "2"; "3"; "4"; "5"; "6"; "7"; "8"; "9"; "10"; "11"; "12"; "13";
   "14"; "15"; "16"; "17"; "18"; "19"; "20"; "21"; "22"; "23"]%string.

(** ** Runs of consecutive trades *)

(** In the streak scan a trade that is not a win is a loss. *)
Definition not_wins (p : Q) : bool := negb (is_wins p).

(** [run] is a stretch of consecutive elements of [ps], all satisfying [f]. *)
Definition is_run (f : Q -> bool) (ps run : list Q) : Prop :=
  (exists l1 l2, ps = l1 ++ run ++ l2) /\ forallb f run = true.

(** [run] is a run of [f] at the end of [ps]. *)
Definition is_end_run (f : Q -> bool) (ps run : list Q) : Prop :=
  (exists l1, ps = l1 ++ run) /\ forallb f run = true.

(** One counter of the streak scan: the current run and the longest so far. *)
Definition run_step (f : Q -> bool) (c : nat * nat) (p : Q) : nat * nat :=
  if f p then (S (fst c), Nat.max (snd c) (S (fst c))) else (0%nat, snd c).


(** ** The per-pair table as a fold of entries *)

(** The key of a trade in the per-pair table. *)
Definition pair_key (t : Trade) : string :=
  match pair t with
  | Some s => if nonempty s then s else "Unknown"%string
  | None => "Unknown"%string
  end.

Definition pair_zero : PairStat := {| ps_wins := 0; ps_losses := 0; ps_profit := 0 |}.

(** One trade booked on an entry. *)
Definition pair_add (e : PairStat) (p : Q) : PairStat :=
  {| ps_wins := if 0 <? p then S (ps_wins e) else ps_wins e;
     ps_losses := if 0 <? p then ps_losses e else S (ps_losses e);
     ps_profit := round (ps_profit e + p) 2 |}.

(** A column of the per-pair table added up over the pairs. *)
Definition pairs_total (g : PairStat -> nat) (m : gmap string PairStat) : nat :=
  map_fold (fun _ e acc => (g e + acc)%nat) 0%nat m.


(** ** The store: the three tables of [init_db]

    Rows are kept in insertion order.  [created_at] of [accounts] is set
    by the store and read by no code; it is left out. *)

Record Account : Type := {
  acc_id         : Z;
  account_number : string;
  password_hash  : string;
  broker         : option string;
  currency       : option string
}.

Record TradeRow : Type := {
  tr_id         : Z;
  tr_account_id : Z;
  tr_trade      : Trade
}.

Record SnapshotRow : Type := {
  sr_id         : Z;
  sr_account_id : Z;
  sr_snapshot   : Snapshot
}.

Record Db : Type := {
  db_accounts  : list Account;
  db_trades    : list TradeRow;
  db_snapshots : list SnapshotRow
}.

(** [INTEGER PRIMARY KEY AUTOINCREMENT]: the id of a new row is larger
    than every id of the table.  SQLite leaves open whether an id spent on
    a failed or ignored insert is given again; here it is, so the new id
    is one more than the largest.  Of an id of [trades], the table with
    ignored inserts, the properties below use only that no other row has
    it. *)
Definition next_id (ids : list Z) : Z := fold_left Z.max ids 0%Z + 1.

(** [get_account]: the first row with that account number. *)
Definition get_account (db : Db) (number : string) : option Account :=
  List.find (fun a => String.eqb (account_number a) number) (db_accounts db).

(** [UNIQUE(account_id, ticket)]: a row with the same account and the same
    ticket; [NULL] tickets never collide. *)
Definition same_key (account_id : Z) (tk : option Z) (r : TradeRow) : bool :=
  match tk, ticket (tr_trade r) with
  | Some k, Some k' => (tr_account_id r =? account_id)%Z && (k' =? k)%Z
  | _, _ => false
  end.

(** [INSERT OR IGNORE INTO trades]. *)
Definition insert_or_ignore (rows : list TradeRow) (account_id : Z) (t : Trade)
    : list TradeRow :=
  if existsb (same_key account_id (ticket t)) rows then rows
  else rows ++ [{| tr_id := next_id (map tr_id rows);
                   tr_account_id := account_id; tr_trade := t |}].

(** ** [str.strip()] *)

Fixpoint lstrip (s : string) : string :=
  match s with
  | String c s' => if space c then lstrip s' else s
  | EmptyString => EmptyString
  end.

Fixpoint rstrip (s : string) : string :=
  match s with
  | String c s' =>
    match rstrip s' with
    | EmptyString => if space c then EmptyString else String c EmptyString
    | r => String c r
    end
  | EmptyString => EmptyString
  end.

Definition strip (s : string) : string := rstrip (lstrip s).

(** ** [sync_trades] *)

(** A JSON number: an integer of any size, or a float. *)
Inductive JNum : Type :=
  | JInt (z : Z)
  | JFloat (q : Q).

(** The value a number has once stored in a [REAL] column (exact, as all
    numbers here). *)
Definition num_value (x : JNum) : Q :=
  match x with
  | JInt z => inject_Z z
  | JFloat q => q
  end.

(** [sqlite3] binds a Python [int] as a 64-bit signed integer, and raises
    [OverflowError] when it does not fit. *)
Definition fits_int64 (z : Z) : bool :=
  (- 2 ^ 63 <=? z)%Z && (z <? 2 ^ 63)%Z.

Definition bind_num (x : JNum) : exc Q :=
  match x with
  | JInt z => if fits_int64 z then Ok (inject_Z z) else Raise OverflowError
  | JFloat q => Ok q
  end.

(** One element of the payload's [trades] that is a JSON object: each key
    there or not, with a string for a text column, an integer for the
    ticket and a number for the other columns.  A string can always be
    bound; an integer only when it fits. *)
Record TradeIn : Type := {
  in_ticket      : option Z;
  in_pair        : option string;
  in_type        : option string;
  in_open_time   : option string;
  in_close_time  : option string;
  in_open_price  : option JNum;
  in_close_price : option JNum;
  in_sl          : option JNum;
  in_tp          : option JNum;
  in_lots        : option JNum;
  in_profit      : option JNum;
  in_commission  : option JNum;
  in_swap        : option JNum
}.

(** An element of the payload's [trades]: an object, or another JSON value
    (a number, a string, a list, [null]), on which [t.get] raises
    [AttributeError]. *)
Inductive TradeElem : Type :=
  | JObject (t : TradeIn)
  | JOther.

Record SyncPayload : Type := {
  p_account_number : option string;
  p_trades         : option (list TradeElem);
  p_balance        : option JNum;
  p_equity         : option JNum
}.

(** Seconds from the start of the proleptic calendar. *)
Definition seconds_of (dt : datetime) : Z :=
  Z.of_nat (toordinal dt) * 86400
  + Z.of_nat (hour dt) * 3600 + Z.of_nat (minute dt) * 60 + Z.of_nat (second dt).

(** [int((dt2 - dt1).total_seconds() / 60)]: [int] truncates towards 0. *)
Definition minutes_between (dt1 dt2 : datetime) : Z :=
  Z.quot (seconds_of dt2 - seconds_of dt1) 60.

Definition duration_of (open_t close_t : string) : Z :=
  if nonempty open_t && nonempty close_t then
    try_pass 0%Z
      (dt1 ← strptime (slice_to 19 open_t);
       dt2 ← strptime (slice_to 19 close_t);
       Ok (minutes_between dt1 dt2))
  else 0%Z.

(** [t.get(key, 0)] on a numeric key, as the column stores it. *)
Definition num_or_zero (x : option JNum) : Q :=
  num_value (default (JInt 0) x).

(** The row values of one payload trade. *)
Definition trade_of_payload (t : TradeIn) : Trade :=
  let open_t := default EmptyString (in_open_time t) in
  let close_t := default EmptyString (in_close_time t) in
  {| ticket := in_ticket t;
     pair := in_pair t;
     trade_type := in_type t;
     open_time := Some open_t;
     close_time := Some close_t;
     open_price := num_or_zero (in_open_price t);
     close_price := num_or_zero (in_close_price t);
     sl := num_or_zero (in_sl t);
     tp := num_or_zero (in_tp t);
     lots := num_or_zero (in_lots t);
     profit := num_or_zero (in_profit t);
     commission := num_or_zero (in_commission t);
     swap := num_or_zero (in_swap t);
     duration_minutes := duration_of open_t close_t |}.

Definition binds_num (x : option JNum) : bool :=
  match x with
  | Some (JInt z) => fits_int64 z
  | _ => true
  end.

Definition binds_ticket (k : option Z) : bool :=
  match k with
  | Some z => fits_int64 z
  | None => true
  end.

(** Every parameter of the [INSERT] of one payload trade can be bound. *)
Definition binds (t : TradeIn) : bool :=
  binds_ticket (in_ticket t)
  && binds_num (in_open_price t) && binds_num (in_close_price t)
  && binds_num (in_sl t) && binds_num (in_tp t) && binds_num (in_lots t)
  && binds_num (in_profit t) && binds_num (in_commission t)
  && binds_num (in_swap t).

(** [conn.execute("INSERT OR IGNORE INTO trades ...", (...))]. *)
Definition execute_insert (rows : list TradeRow) (account_id : Z) (t : TradeIn)
    : exc (list TradeRow) :=
  if binds t then Ok (insert_or_ignore rows account_id (trade_of_payload t))
  else Raise OverflowError.

(** [t.get] on an element of [trades]. *)
Definition fields_of (e : TradeElem) : exc TradeIn :=
  match e with
  | JObject t => Ok t
  | JOther => Raise AttributeError
  end.

(** The loop over the payload's trades: the table and the counter.  The
    body is inside [try: ... except: pass], with [inserted += 1] as its
    last statement. *)
Definition sync_step (account_id : Z) (st : list TradeRow * nat) (e : TradeElem)
    : list TradeRow * nat :=
  try_pass st
    (t ← fields_of e;
     rows ← execute_insert (fst st) account_id t;
     Ok (rows, S (snd st))).

(** [INSERT INTO equity_snapshots], outside the inner [try]. *)
Definition insert_snapshot (rows : list SnapshotRow) (account_id : Z)
    (balance equity : JNum) (now : string) : exc (list SnapshotRow) :=
  b ← bind_num balance;
  e ← bind_num equity;
  Ok (rows ++ [{| sr_id := next_id (map sr_id rows);
                  sr_account_id := account_id;
                  sr_snapshot := {| balance := b; equity := e;
                                    snapshot_time := now |} |}]).

(** The responses: 403, 404, 200 with the counter, and the 500 of the
    outer [except Exception], which is returned before [commit]. *)
Inductive SyncResponse : Type :=
  | SyncInvalidKey
  | SyncAccountNotFound
  | SyncOk (inserted : nat)
  | SyncServerError.

Section Handlers.

(** The configured [API_KEY], and [hashlib.sha256(s.encode()).hexdigest()]. *)
Variable API_KEY : string.
Variable sha256_hex : string -> string.

Definition hash_password (pwd : string) : string := sha256_hex pwd.

(** [sync_trades]: the [X-API-Key] header, the JSON payload, and the
    store's clock at the snapshot insert. *)
Definition sync_trades (db : Db) (key_header : option string)
    (payload : SyncPayload) (now : string) : SyncResponse * Db :=
  if negb (String.eqb (default EmptyString key_header) API_KEY)
  then (SyncInvalidKey, db)
  else
    let acc_num := default EmptyString (p_account_number payload) in
    let trades_in := default [] (p_trades payload) in
    let balance := default (JInt 0) (p_balance payload) in
    let equity := default (JInt 0) (p_equity payload) in
    match get_account db acc_num with
    | None => (SyncAccountNotFound, db)
    | Some acc =>
      let '(rows, inserted) :=
        fold_left (sync_step (acc_id acc)) trades_in (db_trades db, 0%nat) in
      match insert_snapshot (db_snapshots db) (acc_id acc) balance equity now with
      | Ok snaps =>
        (SyncOk inserted,
         {| db_accounts := db_accounts db;
            db_trades := rows;
            db_snapshots := snaps |})
      | Raise _ => (SyncServerError, db)
      end
    end.

(** ** Accounts and the session *)

(** What [login] stores in the session. *)
Record Session : Type := {
  sess_account_id     : Z;
  sess_account_number : string;
  sess_broker         : string
}.

Inductive Page : Type :=
  | RedirectDashboard
  | RedirectLogin
  | LoginPage (error : option string)
  | RegisterPage (error : option string).

(** [x or d] on a nullable string. *)
Definition or_default (x : option string) (d : string) : string :=
  match x with
  | Some s => if nonempty s then s else d
  | None => d
  end.

(** [login] on a POST: the two form fields, each there or not. *)
Definition login_post (db : Db) (sess : option Session)
    (f_account_number f_password : option string) : Page * option Session :=
  let acc_num := strip (default EmptyString f_account_number) in
  let pwd := strip (default EmptyString f_password) in
  match get_account db acc_num with
  | Some acc =>
    if String.eqb (password_hash acc) (hash_password pwd) then
      (RedirectDashboard,
       Some {| sess_account_id := acc_id acc;
               sess_account_number := account_number acc;
               sess_broker := or_default (broker acc) "MT5" |})
    else (LoginPage (Some "Invalid account number or password."%string), sess)
  | None => (LoginPage (Some "Invalid account number or password."%string), sess)
  end.

(** [logout]. *)
Definition logout (sess : option Session) : Page * option Session :=
  (RedirectLogin, None).

(** [INSERT INTO accounts]: [IntegrityError] (here [None]) when the
    account number is taken. *)
Definition insert_account (db : Db) (number hash : string)
    (brk cur : option string) : option Db :=
  if existsb (fun a => String.eqb (account_number a) number) (db_accounts db)
  then None
  else Some {| db_accounts :=
                 db_accounts db
                 ++ [{| acc_id := next_id (map acc_id (db_accounts db));
                        account_number := number; password_hash := hash;
                        broker := brk; currency := cur |}];
               db_trades := db_trades db;
               db_snapshots := db_snapshots db |}.

(** [register] on a POST. *)
Definition register_post (db : Db)
    (f_account_number f_password f_broker f_currency : option string) : Page * Db :=
  let acc_num := strip (default EmptyString f_account_number) in
  let pwd := strip (default EmptyString f_password) in
  let brk := strip (default "MT5"%string f_broker) in
  let cur := strip (default "USD"%string f_currency) in
  if negb (nonempty acc_num) || negb (nonempty pwd)
  then (RegisterPage (Some "Please fill all fields."%string), db)
  else
    match insert_account db acc_num (hash_password pwd) (Some brk) (Some cur) with
    | Some db' => (RedirectLogin, db')
    | None => (RegisterPage (Some "Account number already registered."%string), db)
    end.

Inductive ApiRegisterResponse : Type :=
  | ApiInvalidKey
  | ApiRegistered
  | ApiAlreadyExists.

(** [api_register]: the fields are taken as sent, [currency] is the
    column default. *)
Definition api_register (db : Db) (key_header : option string)
    (j_account_number j_password j_broker : option string)
    : ApiRegisterResponse * Db :=
  if negb (String.eqb (default EmptyString key_header) API_KEY)
  then (ApiInvalidKey, db)
  else
    let acc_num := default EmptyString j_account_number in
    let pwd := default EmptyString j_password in
    let brk := default "MT5"%string j_broker in
    match insert_account db acc_num (hash_password pwd) (Some brk) (Some "USD"%string) with
    | Some db' => (ApiRegistered, db')
    | None => (ApiAlreadyExists, db)
    end.

End Handlers.


(** ** Keys of the [trades] table *)

(** The [(account_id, ticket)] pairs of the rows that have a ticket. *)
Definition trade_keys (rows : list TradeRow) : list (Z * Z) :=
  flat_map (fun r => match ticket (tr_trade r) with
                     | Some k => [(tr_account_id r, k)]
                     | None => []
                     end) rows.

(** The payload elements that reach the end of the loop body: the objects
    whose values can all be bound.  The others raise inside the [try] and
    are skipped. *)
Definition stored_trades (es : list TradeElem) : list TradeIn :=
  flat_map (fun e => match e with
                     | JObject t => if binds t then [t] else []
                     | JOther => []
                     end) es.

(** The loop body on an element that reaches its end. *)
Definition store_step (account_id : Z) (st : list TradeRow * nat) (t : TradeIn)
    : list TradeRow * nat :=
  (insert_or_ignore (fst st) account_id (trade_of_payload t), S (snd st)).

(** A payload trade with ticket [k]. *)
Definition has_ticket (k : Z) (t : TradeIn) : bool :=
  match in_ticket t with
  | Some k' => (k' =? k)%Z
  | None => false
  end.


(** ** Statements and sample rows of the store *)

(** The counts of the summary, and the rate computed from them. *)
Definition same_order_free_fields (s s' : Stats) : Prop :=
  total_trades s = total_trades s'
  /\ win_count s = win_count s'
  /\ loss_count s = loss_count s'
  /\ win_rate s = win_rate s'.

(** The store after a registration attempt: the same, or one account more. *)
Definition accounts_kept_unique (db db' : Db) : Prop :=
  NoDup (map account_number (db_accounts db'))
  /\ NoDup (map acc_id (db_accounts db'))
  /\ (exists more, db_accounts db' = db_accounts db ++ more)
  /\ db_trades db' = db_trades db
  /\ db_snapshots db' = db_snapshots db.

Definition sample_account : Account :=
  {| acc_id := 1; account_number := "1001"; password_hash := "h";
     broker := None; currency := None |}.

Definition sample_db : Db :=
  {| db_accounts := [sample_account]; db_trades := []; db_snapshots := [] |}.

Definition sample_trade_in (k : option Z) (p : Q) : TradeIn :=
  {| in_ticket := k; in_pair := Some "XAUUSD"%string; in_type := Some "buy"%string;
     in_open_time := Some "2024-01-05 10:00:00"%string;
     in_close_time := Some "2024-01-05 11:30:00"%string;
     in_open_price := None; in_close_price := None; in_sl := None; in_tp := None;
     in_lots := None; in_profit := Some (JFloat p); in_commission := None;
     in_swap := None |}.

Definition sample_payload (ts : list TradeIn) : SyncPayload :=
  {| p_account_number := Some "1001"%string; p_trades := Some (map JObject ts);
     p_balance := Some (JInt 1000); p_equity := Some (JInt 1010) |}.

(** * Properties *)

(** ** The model on sample inputs *)

Example str_23 : str 23 = "23"%string.
Proof. reflexivity. Qed.

Example round_tie_to_even : round 1.875 2 == 1.88 /\ round 0.125 2 == 0.12.
Proof. split; reflexivity. Qed.

Example strptime_plain :
  strptime "2024-01-05 10:00:00"
  = Ok {| year := 2024; month := 1; day := 5; hour := 10; minute := 0; second := 0 |}.
Proof. vm_compute. reflexivity. Qed.

Example strptime_friday :
  match strptime "2024-01-05 10:00:00" with
  | Ok dt => nth_error day_names (weekday dt)
  | Raise _ => None
  end = Some "Fri"%string.
Proof. vm_compute. reflexivity. Qed.

Example strptime_short_fields :
  strptime "2024-2- 9   7:5:59"
  = Ok {| year := 2024; month := 2; day := 9; hour := 7; minute := 5; second := 59 |}.
Proof. vm_compute. reflexivity. Qed.

Example strptime_rejects :
  strptime "garbage" = Raise ValueError
  /\ strptime "2024-01-05T10:00:00" = Raise ValueError
  /\ strptime "2024-02-30 10:00:00" = Raise ValueError
  /\ strptime "2024-01-05 10:00:60" = Raise ValueError
  /\ strptime "0000-01-01 00:00:00" = Raise ValueError.
Proof. repeat split; vm_compute; reflexivity. Qed.

Example strptime_after_slice :
  strptime (slice_to 19 "2024-01-05 10:00:00.123456")
  = Ok {| year := 2024; month := 1; day := 5; hour := 10; minute := 0; second := 0 |}.
Proof. vm_compute. reflexivity. Qed.

Example stdev_sample :
  stdev [2; 4; 4; 4; 5; 5; 7; 9] = Ok (2407275258974741 # 1125899906842624)
  /\ stdev [1] = Raise StatisticsError.
Proof. split; vm_compute; reflexivity. Qed.

(** ** Numbers *)

Lemma ltb_lt (x y : Q) : (x <? y) = true <-> x < y.
Proof.
  unfold ltb. rewrite negb_true_iff. split.
  - intros H. apply Qnot_le_lt. intros Hle.
    apply Qle_bool_iff in Hle. congruence.
  - intros H. destruct (Qle_bool y x) eqn:E; [|reflexivity].
    apply Qle_bool_iff in E. exfalso. exact (Qlt_not_le _ _ H E).
Qed.

Lemma ltb_ge (x y : Q) : (x <? y) = false <-> y <= x.
Proof.
  unfold ltb. rewrite negb_false_iff. apply Qle_bool_iff.
Qed.

Lemma div_ok (x y : Q) : ~ y == 0 -> x // y = Ok (x / y).
Proof.
  intros H. unfold div. destruct (Qeq_bool y 0) eqn:E; [|reflexivity].
  apply Qeq_bool_iff in E. contradiction.
Qed.

Lemma of_nat_nonzero (n : nat) : (0 < n)%nat -> ~ of_nat n == 0.
Proof.
  intros H E. unfold of_nat, Qeq in E. simpl in E. lia.
Qed.

Lemma round_half_even_wd (x y : Q) : x == y -> round_half_even x = round_half_even y.
Proof.
  intros H. unfold round_half_even.
  rewrite (Qfloor_comp _ _ H).
  assert (E : x - inject_Z (Qfloor y) == y - inject_Z (Qfloor y)) by (rewrite H; reflexivity).
  rewrite (Qcompare_comp _ _ E (1 # 2) (1 # 2) (Qeq_refl _)). reflexivity.
Qed.

Lemma round_wd (x y : Q) (n : nat) : x == y -> round x n = round y n.
Proof.
  intros H. unfold round. f_equal. f_equal.
  apply round_half_even_wd. rewrite H. reflexivity.
Qed.

(** ** [compute_stats] in closed form *)

Lemma win_rate_ok (w n : nat) :
  (0 < n)%nat ->
  (if (0 <? n)%nat then r ← of_nat w // of_nat n; Ok (r * 100) else Ok 0)
  = Ok (of_nat w / of_nat n * 100).
Proof.
  intros H. apply Nat.ltb_lt in H as E. rewrite E.
  rewrite div_ok by (apply of_nat_nonzero; exact H). reflexivity.
Qed.

Lemma mean_ok (l : list Q) :
  match l with
  | _ :: _ => sum l // of_nat (length l)
  | [] => Ok 0
  end = Ok (mean0 l).
Proof.
  destruct l as [|x l]; [reflexivity|].
  rewrite div_ok by (apply of_nat_nonzero; simpl; lia). reflexivity.
Qed.

Lemma ratio_ok (x y : Q) :
  (if 0 <? y then x // y else Ok 0) = Ok (ratio0 x y).
Proof.
  unfold ratio0. destruct (0 <? y) eqn:E; [|reflexivity].
  apply ltb_lt in E. rewrite div_ok; [reflexivity|].
  intros H. rewrite H in E. exact (Qlt_irrefl _ E).
Qed.

Lemma stdev_ok (data : list Q) :
  (1 <? length data)%nat = true -> exists sd, stdev data = Ok sd.
Proof.
  intros H. unfold stdev. apply Nat.ltb_lt in H.
  destruct (length data <? 2)%nat eqn:E.
  - apply Nat.ltb_lt in E. lia.
  - eexists. reflexivity.
Qed.

Lemma sharpe_ok (profits : list Q) :
  (if (1 <? length profits)%nat
   then
     avg_ret ← sum profits // of_nat (length profits);
     std_ret ← stdev profits;
     if 0 <? std_ret then avg_ret // std_ret else Ok 0
   else Ok 0) = Ok (sharpe_of profits).
Proof.
  unfold sharpe_of. destruct (1 <? length profits)%nat eqn:E; [|reflexivity].
  destruct (stdev_ok _ E) as [sd Hsd]. rewrite Hsd.
  apply Nat.ltb_lt in E.
  rewrite div_ok by (apply of_nat_nonzero; lia).
  cbn [mbind exc_bind]. apply ratio_ok.
Qed.

(** On a non-empty list every guarded division goes through, and the
    returned dict is [stats_of] of the profits. *)
Lemma compute_stats_cons (t : Trade) (ts : list Trade) :
  compute_stats (t :: ts) = Ok (Some (stats_of (map profit (t :: ts)))).
Proof.
  unfold compute_stats. cbv zeta.
  rewrite win_rate_ok by (simpl; lia).
  rewrite !mean_ok, ratio_ok, sharpe_ok.
  cbn [mbind exc_bind].
  rewrite div_ok by (intros H; discriminate H).
  reflexivity.
Qed.

Lemma ratio0_zero_den (x y : Q) : y == 0 -> ratio0 x y = 0.
Proof.
  intros H. unfold ratio0.
  assert (E : (0 <? y) = false) by (apply ltb_ge; rewrite H; apply Qle_refl).
  rewrite E. reflexivity.
Qed.

(** ** The streak scan *)

Lemma streak_max_l_step (s : Streak) (p : Q) :
  (st_max_l s <= st_max_l (streak_step s p))%nat.
Proof.
  unfold streak_step. destruct (0 <? p); simpl; lia.
Qed.

Lemma streak_max_l_mono (ps : list Q) (s : Streak) :
  (st_max_l s <= st_max_l (fold_left streak_step ps s))%nat.
Proof.
  revert s. induction ps as [|p ps IH]; intros s; simpl; [lia|].
  etransitivity; [apply streak_max_l_step | apply IH].
Qed.

(** A zero profit is neither a win nor a loss for the two filters. *)
Lemma zero_not_win (p : Q) : p == 0 -> is_wins p = false.
Proof.
  intros H. unfold is_wins. apply ltb_ge. rewrite H. apply Qle_refl.
Qed.

Lemma zero_not_loss (p : Q) : p == 0 -> is_losses p = false.
Proof.
  intros H. unfold is_losses. apply ltb_ge. rewrite H. apply Qle_refl.
Qed.

Lemma filter_skip {A : Type} (f : A -> bool) (l1 l2 : list A) (x : A) :
  f x = false -> List.filter f (l1 ++ x :: l2) = List.filter f (l1 ++ l2).
Proof.
  intros H. rewrite !List.filter_app. simpl. rewrite H. reflexivity.
Qed.

(** ** Zero-profit trades *)

(** Every trade is a win, a loss or a zero-profit trade for the two
    filters, so the two counts fall short of the total by the number of
    zero-profit trades. *)
Lemma win_loss_zero_partition (ps : list Q) :
  (length (List.filter is_wins ps) + length (List.filter is_losses ps)
   + length (List.filter (fun p => Qeq_bool p 0) ps))%nat = length ps.
Proof.
  induction ps as [|p ps IH]; [reflexivity|].
  simpl. unfold is_wins at 1, is_losses at 1.
  destruct (0 <? p) eqn:Ew; destruct (p <? 0) eqn:El;
    destruct (Qeq_bool p 0) eqn:Ez; simpl; try lia; exfalso.
  - apply ltb_lt in Ew, El. exact (Qlt_irrefl _ (Qlt_trans _ _ _ Ew El)).
  - apply ltb_lt in Ew, El. exact (Qlt_irrefl _ (Qlt_trans _ _ _ Ew El)).
  - apply ltb_lt in Ew. apply Qeq_bool_iff in Ez. rewrite Ez in Ew.
    exact (Qlt_irrefl _ Ew).
  - apply ltb_lt in El. apply Qeq_bool_iff in Ez. rewrite Ez in El.
    exact (Qlt_irrefl _ El).
  - apply ltb_ge in Ew, El. apply Qeq_bool_neq in Ez. apply Ez.
    apply Qle_antisym; assumption.
Qed.

(** C1 (the code at the failing input).  A single trade with profit 0:
    [compute_stats] reports no win and no loss out of one trade, so
    [win_count + loss_count] is not [total_trades]; the streak scan of
    the same call and the per-pair table of the same response both book
    that trade as a loss. *)
Theorem zero_profit_trade_is_in_neither_count :
  exists s,
    compute_stats [trade_of_profit 0] = Ok (Some s)
    /\ total_trades s = 1%nat
    /\ win_count s = 0%nat
    /\ loss_count s = 0%nat
    /\ (win_count s + loss_count s)%nat <> total_trades s
    /\ max_consec_losses s = 1%nat
    /\ pairs_of [trade_of_profit 0] !! "Unknown"%string
       = Some {| ps_wins := 0; ps_losses := 1; ps_profit := 0 |}.
Proof.
  eexists. split; [vm_compute; reflexivity|].
  simpl. repeat split; try reflexivity. discriminate.
Qed.

(** C2 (as stated, refuted).  On the profits 100, -50, 50, -20, -10 the
    reported [profit_factor] is not 1.875. *)
Lemma scenario_profit_factor_is_not_1_875 :
  exists s,
    compute_stats (map trade_of_profit [100; -50; 50; -20; -10]) = Ok (Some s)
    /\ ~ profit_factor s == 1.875.
Proof.
  eexists. split; [vm_compute; reflexivity|].
  simpl. intros H. discriminate H.
Qed.

(** C2 (amended).  On the profits 100, -50, 50, -20, -10, in this order,
    [compute_stats] returns [max_consec_wins = 1], [max_consec_losses = 2],
    [total_profit = 70], [win_count = 2], [loss_count = 3],
    [gross_profit = 150], [gross_loss = 80] and [profit_factor = 1.88]:
    the ratio 150 / 80 = 1.875 rounded to two decimals. *)
Theorem scenario_five_trades :
  exists s,
    compute_stats (map trade_of_profit [100; -50; 50; -20; -10]) = Ok (Some s)
    /\ max_consec_wins s = 1%nat
    /\ max_consec_losses s = 2%nat
    /\ total_profit s == 70
    /\ win_count s = 2%nat
    /\ loss_count s = 3%nat
    /\ gross_profit s == 150
    /\ gross_loss s == 80
    /\ profit_factor s == 1.88
    /\ 150 / 80 == 1.875.
Proof.
  eexists. split; [vm_compute; reflexivity|].
  simpl. repeat split; reflexivity.
Qed.

(** C3.  A trade with profit 0 anywhere in the sequence: [win_count] and
    [loss_count] are the counts over the other trades (it is in neither),
    [avg_loss] and [gross_loss] are those of the other trades, and yet
    the streak scan takes it for a loss: at that trade the current win
    streak drops to 0 and the current loss streak grows by one, and
    [max_consec_losses] is at least the streak so extended. *)
Theorem zero_profit_trade_in_streaks_only (l1 l2 : list Trade) (t : Trade) :
  profit t == 0 ->
  let others := map profit (l1 ++ l2) in
  let before := fold_left streak_step (map profit l1) streak_init in
  let at_t := streak_step before (profit t) in
  exists s,
    compute_stats (l1 ++ t :: l2) = Ok (Some s)
    /\ total_trades s = S (length others)
    /\ win_count s = length (List.filter is_wins others)
    /\ loss_count s = length (List.filter is_losses others)
    /\ avg_loss s = round (mean0 (List.filter is_losses others)) 2
    /\ gross_loss s = round (Qabs (sum (List.filter is_losses others))) 2
    /\ st_cur_w at_t = 0%nat
    /\ st_cur_l at_t = S (st_cur_l before)
    /\ st_max_l at_t = Nat.max (st_max_l before) (S (st_cur_l before))
    /\ max_consec_losses s = st_max_l (fold_left streak_step (map profit l2) at_t)
    /\ (S (st_cur_l before) <= max_consec_losses s)%nat.
Proof.
  intros Hz others before at_t.
  assert (Hstep : at_t =
    {| st_max_w := st_max_w before;
       st_max_l := Nat.max (st_max_l before) (S (st_cur_l before));
       st_cur_w := 0; st_cur_l := S (st_cur_l before) |}).
  { unfold at_t, streak_step. fold (is_wins (profit t)).
    rewrite (zero_not_win _ Hz). reflexivity. }
  assert (Hscan : fold_left streak_step (map profit (l1 ++ t :: l2)) streak_init
                  = fold_left streak_step (map profit l2) at_t).
  { rewrite map_app, fold_left_app. reflexivity. }
  assert (Hne : exists u us, l1 ++ t :: l2 = u :: us).
  { destruct l1; simpl; eauto. }
  destruct Hne as (u & us & Hus).
  exists (stats_of (map profit (l1 ++ t :: l2))). split.
  { rewrite Hus. apply compute_stats_cons. }
  assert (Hw : List.filter is_wins (map profit (l1 ++ t :: l2)) = List.filter is_wins others).
  { unfold others. rewrite !map_app. simpl. apply filter_skip, zero_not_win, Hz. }
  assert (Hl : List.filter is_losses (map profit (l1 ++ t :: l2)) = List.filter is_losses others).
  { unfold others. rewrite !map_app. simpl. apply filter_skip, zero_not_loss, Hz. }
  unfold stats_of. simpl total_trades. simpl win_count. simpl loss_count.
  simpl avg_loss. simpl gross_loss. simpl max_consec_losses.
  rewrite Hw, Hl, Hscan.
  repeat split.
  - unfold others. rewrite !length_map, !length_app. simpl. lia.
  - rewrite Hstep. reflexivity.
  - rewrite Hstep. reflexivity.
  - rewrite Hstep. reflexivity.
  - etransitivity; [|apply streak_max_l_mono].
    rewrite Hstep. simpl. lia.
Qed.

(** The statement above at the profits 5, 0, -3. *)
Lemma zero_profit_trade_in_streaks_only_witness :
  let l1 := [trade_of_profit 5] in
  let l2 := [trade_of_profit (-3)] in
  let t := trade_of_profit 0 in
  let others := map profit (l1 ++ l2) in
  let before := fold_left streak_step (map profit l1) streak_init in
  let at_t := streak_step before (profit t) in
  exists s,
    compute_stats (l1 ++ t :: l2) = Ok (Some s)
    /\ total_trades s = S (length others)
    /\ win_count s = length (List.filter is_wins others)
    /\ loss_count s = length (List.filter is_losses others)
    /\ avg_loss s = round (mean0 (List.filter is_losses others)) 2
    /\ gross_loss s = round (Qabs (sum (List.filter is_losses others))) 2
    /\ st_cur_w at_t = 0%nat
    /\ st_cur_l at_t = S (st_cur_l before)
    /\ st_max_l at_t = Nat.max (st_max_l before) (S (st_cur_l before))
    /\ max_consec_losses s = st_max_l (fold_left streak_step (map profit l2) at_t)
    /\ (S (st_cur_l before) <= max_consec_losses s)%nat.
Proof.
  exact (zero_profit_trade_in_streaks_only
           [trade_of_profit 5] [trade_of_profit (-3)] (trade_of_profit 0)
           (Qeq_refl 0)).
Defined.

(** ** Division guards *)

Lemma compute_stats_total (trades : list Trade) :
  compute_stats trades
  = Ok (match trades with
        | [] => None
        | _ :: _ => Some (stats_of (map profit trades))
        end).
Proof.
  destruct trades as [|t ts]; [reflexivity | apply compute_stats_cons].
Qed.

Lemma filter_nil_of_length {A : Type} (f : A -> bool) (l : list A) :
  length (List.filter f l) = 0%nat -> List.filter f l = [].
Proof.
  destruct (List.filter f l); [reflexivity | discriminate].
Qed.

Lemma compute_stats_with_stdev (trades : list Trade) :
  compute_stats trades = compute_stats_with stdev trades.
Proof. destruct trades; reflexivity. Qed.

(** C6 (amended).  The guards of [compute_stats] read the values before
    they are rounded.  For every trade sequence and whatever
    [statistics.stdev] does: [profit_factor] is 0 whenever the gross loss
    before rounding (the absolute value of the sum of the negative
    profits) is 0, in particular when no profit is negative;
    [sharpe_ratio] is 0 whenever there are fewer than two trades or the
    standard deviation returned is 0; the averages are 0 on an empty
    class.  No division raises: [compute_stats] returns the empty dict on
    no trades and the summary otherwise, and when it raises, it is on two
    or more trades, with the exception that [statistics.stdev] raised. *)
Theorem divisions_are_guarded (stdev_fn : list Q -> exc Q) (trades : list Trade) :
  let profits := map profit trades in
  let wins := List.filter is_wins profits in
  let losses := List.filter is_losses profits in
  compute_stats trades = compute_stats_with stdev trades
  /\ match compute_stats_with stdev_fn trades with
     | Ok None => trades = []
     | Ok (Some s) =>
       trades <> []
       /\ (Qabs (sum losses) == 0 -> profit_factor s = 0)
       /\ ((length trades < 2)%nat
           \/ (exists sd, stdev_fn profits = Ok sd /\ sd == 0)
           -> sharpe_ratio s = 0)
       /\ (wins = [] -> avg_win s = 0)
       /\ (losses = [] -> avg_loss s = 0 /\ profit_factor s = 0)
     | Raise e => (2 <= length trades)%nat /\ stdev_fn profits = Raise e
     end.
Proof.
  cbv zeta. split; [apply compute_stats_with_stdev|].
  destruct trades as [|t ts]; [reflexivity|].
  set (ps := map profit (t :: ts)).
  assert (Hlen : length ps = length (t :: ts)) by apply length_map.
  unfold compute_stats_with. cbv zeta. fold ps.
  rewrite win_rate_ok by (rewrite Hlen; simpl; lia).
  rewrite !mean_ok, ratio_ok.
  cbn [mbind exc_bind].
  rewrite (div_ok _ 100) by (intros H; discriminate H).
  cbn [mbind exc_bind].
  assert (Hfacts :
    forall sharpe,
      (Qabs (sum (List.filter is_losses ps)) == 0 ->
       round (ratio0 (sum (List.filter is_wins ps))
                     (Qabs (sum (List.filter is_losses ps)))) 2 = 0)
      /\ (List.filter is_wins ps = [] -> round (mean0 (List.filter is_wins ps)) 2 = 0)
      /\ (List.filter is_losses ps = [] ->
          round (mean0 (List.filter is_losses ps)) 2 = 0
          /\ round (ratio0 (sum (List.filter is_wins ps))
                           (Qabs (sum (List.filter is_losses ps)))) 2 = 0)
      /\ (sharpe = 0 -> round sharpe 2 = 0)).
  { intros sharpe. split; [|split; [|split]].
    - intros H. rewrite ratio0_zero_den by exact H. reflexivity.
    - intros H. rewrite H. reflexivity.
    - intros H. rewrite H. split; reflexivity.
    - intros ->. reflexivity. }
  destruct (1 <? length ps)%nat eqn:E.
  - apply Nat.ltb_lt in E.
    rewrite (div_ok (sum ps)) by (apply of_nat_nonzero; lia).
    cbn [mbind exc_bind].
    destruct (stdev_fn ps) as [sd|e] eqn:Esd.
    + cbn [mbind exc_bind]. rewrite ratio_ok. cbn [mbind exc_bind].
      cbn [profit_factor sharpe_ratio avg_win avg_loss].
      destruct (Hfacts (ratio0 (sum ps / of_nat (length ps)) sd))
        as (Hpf & Hw & Hl & Hs).
      split; [discriminate|]. split; [exact Hpf|].
      split; [|split; [exact Hw | exact Hl]].
      intros [Hlt | (sd' & Hsd' & Hz)]; [rewrite Hlen in E; lia|].
      injection Hsd' as <-. apply Hs, ratio0_zero_den, Hz.
    + cbn [mbind exc_bind]. split; [rewrite <- Hlen; lia | reflexivity].
  - cbn [mbind exc_bind].
    cbn [profit_factor sharpe_ratio avg_win avg_loss].
    destruct (Hfacts 0) as (Hpf & Hw & Hl & Hs).
    split; [discriminate|]. split; [exact Hpf|].
    split; [|split; [exact Hw | exact Hl]].
    intros _. reflexivity.
Qed.

(** C6 (as stated, refuted).  The returned [gross_loss] is rounded, the
    guard of [profit_factor] reads it before rounding: with profits 5 and
    -0.001 the returned [gross_loss] is 0 and the returned [profit_factor]
    is 5000, not 0. *)
Lemma returned_gross_loss_zero_profit_factor_5000 :
  exists s,
    compute_stats (map trade_of_profit [5; -0.001]) = Ok (Some s)
    /\ gross_loss s = 0
    /\ profit_factor s = 5000
    /\ ~ profit_factor s == 0.
Proof.
  eexists. split; [vm_compute; reflexivity|].
  split; [reflexivity|]. split; [reflexivity|]. intros H. discriminate H.
Qed.

(** ** Drawdown *)

Lemma ltb_wd (a b x y : Q) : a == b -> x == y -> (a <? x) = (b <? y).
Proof.
  intros Hab Hxy. destruct (b <? y) eqn:E.
  - apply ltb_lt. apply ltb_lt in E. rewrite Hab, Hxy. exact E.
  - apply ltb_ge. apply ltb_ge in E. rewrite Hab, Hxy. exact E.
Qed.

Lemma qmax_wd_l (a b x : Q) : a == b -> qmax a x == qmax b x.
Proof.
  intros H. unfold qmax. rewrite (ltb_wd a b x x H (Qeq_refl x)).
  destruct (b <? x); [reflexivity | exact H].
Qed.

Lemma fold_qmax_wd (l : list Q) (a b : Q) :
  a == b -> fold_left qmax l a == fold_left qmax l b.
Proof.
  revert a b. induction l as [|x l IH]; intros a b H; simpl; [exact H|].
  apply IH, qmax_wd_l, H.
Qed.

Lemma qmax_ge_r (x y : Q) : y <= qmax x y.
Proof.
  unfold qmax. destruct (x <? y) eqn:E; [apply Qle_refl|].
  apply ltb_ge in E. exact E.
Qed.

Lemma qmax_zero_nonneg (d : Q) : 0 <= d -> qmax 0 d == d.
Proof.
  intros H. unfold qmax. destruct (0 <? d) eqn:E; [reflexivity|].
  apply ltb_ge in E. apply Qle_antisym; assumption.
Qed.

Lemma running_total_prefix (l l' : list Q) (i : nat) :
  (i <= length l)%nat -> running_total (l ++ l') i = running_total l i.
Proof.
  intros H. unfold running_total. rewrite firstn_app.
  replace (i - length l)%nat with 0%nat by lia.
  simpl. rewrite app_nil_r. reflexivity.
Qed.

Lemma running_totals_prefix (l l' : list Q) (i : nat) :
  (i <= length l)%nat ->
  map (running_total (l ++ l')) (seq 1 i) = map (running_total l) (seq 1 i).
Proof.
  intros H. apply map_ext_in. intros j Hj. apply in_seq in Hj.
  apply running_total_prefix. lia.
Qed.

Lemma running_peak_prefix (l l' : list Q) (i : nat) :
  (i <= length l)%nat -> running_peak (l ++ l') i = running_peak l i.
Proof.
  intros H. unfold running_peak. rewrite running_totals_prefix by exact H.
  reflexivity.
Qed.

Lemma drawdowns_prefix (l l' : list Q) (i : nat) :
  (i <= length l)%nat ->
  map (drawdown_at (l ++ l')) (seq 1 i) = map (drawdown_at l) (seq 1 i).
Proof.
  intros H. apply map_ext_in. intros j Hj. apply in_seq in Hj.
  unfold drawdown_at.
  rewrite running_peak_prefix, running_total_prefix by lia. reflexivity.
Qed.

Lemma running_total_all (l : list Q) : running_total l (length l) = sum l.
Proof. unfold running_total. rewrite firstn_all. reflexivity. Qed.

Lemma running_peak_snoc (l : list Q) (p : Q) :
  running_peak (l ++ [p]) (S (length l))
  = qmax (running_peak l (length l)) (sum l + p).
Proof.
  unfold running_peak at 1. rewrite seq_S, map_app, fold_left_app. simpl.
  rewrite running_totals_prefix by lia. fold (running_peak l (length l)).
  f_equal.
  replace (S (length l)) with (length (l ++ [p])) by (rewrite length_app; simpl; lia).
  rewrite running_total_all. unfold sum. rewrite fold_left_app. reflexivity.
Qed.

(** The loop computes, step by step, the quantities of the specification. *)
Lemma drawdown_loop_spec (ps : list Q) :
  fold_left drawdown_step ps drawdown_init
  = {| dd_peak := running_peak ps (length ps);
       dd_max := fold_left qmax (map (drawdown_at ps) (seq 1 (length ps))) 0;
       dd_running := sum ps |}.
Proof.
  induction ps as [|p l IH] using rev_ind; [reflexivity|].
  rewrite fold_left_app. simpl. rewrite IH. unfold drawdown_step. simpl.
  assert (Hlen : length (l ++ [p]) = S (length l)) by (rewrite length_app; simpl; lia).
  rewrite Hlen.
  assert (Hsum : sum (l ++ [p]) = sum l + p).
  { unfold sum. rewrite fold_left_app. reflexivity. }
  rewrite Hsum, running_peak_snoc.
  fold (qmax (running_peak l (length l)) (sum l + p)).
  f_equal.
  rewrite seq_S, map_app, fold_left_app. simpl.
  rewrite drawdowns_prefix by lia.
  set (m := fold_left qmax (map (drawdown_at l) (seq 1 (length l))) 0).
  unfold drawdown_at.
  rewrite running_peak_snoc.
  replace (running_total (l ++ [p]) (S (length l))) with (sum l + p).
  - reflexivity.
  - rewrite <- Hlen, running_total_all. symmetry. exact Hsum.
Qed.

Lemma first_drawdown_nonneg (ps : list Q) : 0 <= drawdown_at ps 1.
Proof.
  unfold drawdown_at, running_peak. simpl.
  apply (proj1 (Qle_minus_iff _ _)), qmax_ge_r.
Qed.

Lemma qmax_ge_l (x y : Q) : x <= qmax x y.
Proof.
  unfold qmax. destruct (x <? y) eqn:E; [|apply Qle_refl].
  apply ltb_lt in E. apply Qlt_le_weak, E.
Qed.

Lemma fold_qmax_ge_init (l : list Q) (a : Q) : a <= fold_left qmax l a.
Proof.
  revert a. induction l as [|x l IH]; intros a; simpl; [apply Qle_refl|].
  eapply Qle_trans; [apply qmax_ge_l | apply IH].
Qed.

Lemma fold_qmax_ge_elem (l : list Q) (a x : Q) :
  In x l -> x <= fold_left qmax l a.
Proof.
  revert a. induction l as [|y l IH]; intros a Hx; [destruct Hx|].
  simpl. destruct Hx as [->|Hx].
  - eapply Qle_trans; [apply qmax_ge_r | apply fold_qmax_ge_init].
  - apply IH, Hx.
Qed.

Lemma fold_qmax_attained (l : list Q) (a : Q) : In (fold_left qmax l a) (a :: l).
Proof.
  revert a. induction l as [|y l IH]; intros a; simpl; [left; reflexivity|].
  destruct (IH (qmax a y)) as [H|H].
  - unfold qmax in H at 1. destruct (a <? y).
    + right. left. exact H.
    + left. exact H.
  - right. right. exact H.
Qed.

(** The running peak is the largest of 0 and the running totals so far. *)
Lemma running_peak_is_max (ps : list Q) (i : nat) :
  (forall j, (j <= i)%nat -> running_total ps j <= running_peak ps i)
  /\ exists j, (j <= i)%nat /\ running_peak ps i = running_total ps j.
Proof.
  unfold running_peak. split.
  - intros j Hj. destruct j as [|j].
    + apply (fold_qmax_ge_init _ 0).
    + apply fold_qmax_ge_elem, in_map, in_seq. lia.
  - destruct (fold_qmax_attained (map (running_total ps) (seq 1 i)) 0) as [H|H].
    + exists 0%nat. split; [lia|]. symmetry. exact H.
    + apply in_map_iff in H as (j & Hj & Hin). apply in_seq in Hin.
      exists j. split; [lia|]. symmetry. exact Hj.
Qed.

(** [max_drawdown_spec] is the largest of the per-step drawdowns. *)
Lemma max_drawdown_spec_is_max (ps : list Q) :
  ps <> [] ->
  (forall i, (1 <= i <= length ps)%nat -> drawdown_at ps i <= max_drawdown_spec ps)
  /\ exists i, (1 <= i <= length ps)%nat /\ max_drawdown_spec ps = drawdown_at ps i.
Proof.
  intros Hne. unfold max_drawdown_spec.
  destruct (map (drawdown_at ps) (seq 1 (length ps))) as [|d ds] eqn:E.
  { destruct ps; [contradiction | discriminate E]. }
  split.
  - intros i Hi.
    assert (Hin : In (drawdown_at ps i) (d :: ds)).
    { rewrite <- E. apply in_map, in_seq. lia. }
    destruct Hin as [<-|Hin].
    + apply fold_qmax_ge_init.
    + apply fold_qmax_ge_elem, Hin.
  - pose proof (fold_qmax_attained ds d) as H. rewrite <- E in H.
    apply in_map_iff in H as (i & Hi & Hin). apply in_seq in Hin.
    exists i. split; [lia|]. symmetry. exact Hi.
Qed.

(** C7.  For a non-empty trade sequence the reported [max_drawdown] is,
    rounded to two decimals, the largest value of peak minus running total
    over the steps of the walk, where the running total after [i] trades
    is the sum of the first [i] profits in the order supplied and the peak
    is the largest running total seen so far, starting at 0. *)
Theorem max_drawdown_is_largest_peak_minus_running (t : Trade) (ts : list Trade) :
  let ps := map profit (t :: ts) in
  exists s,
    compute_stats (t :: ts) = Ok (Some s)
    /\ max_drawdown s = round (max_drawdown_spec ps) 2
    /\ (forall i, (1 <= i <= length ps)%nat -> drawdown_at ps i <= max_drawdown_spec ps)
    /\ (exists i, (1 <= i <= length ps)%nat /\ max_drawdown_spec ps = drawdown_at ps i)
    /\ (forall i, drawdown_at ps i = running_peak ps i - sum (firstn i ps))
    /\ (forall i j, (j <= i)%nat -> sum (firstn j ps) <= running_peak ps i)
    /\ (forall i, exists j, (j <= i)%nat /\ running_peak ps i = sum (firstn j ps)).
Proof.
  intros ps. eexists. split; [apply compute_stats_cons|].
  split.
  { unfold stats_of. cbn [max_drawdown].
    apply round_wd. rewrite drawdown_loop_spec. cbn [dd_max].
    unfold max_drawdown_spec. fold ps.
    assert (Hn : length ps = S (length (map profit ts))) by reflexivity.
    rewrite Hn. rewrite <- cons_seq. cbn [map fold_left].
    apply fold_qmax_wd, qmax_zero_nonneg, first_drawdown_nonneg. }
  assert (Hne : ps <> []) by discriminate.
  destruct (max_drawdown_spec_is_max ps Hne) as [Hub Hatt].
  split; [exact Hub|]. split; [exact Hatt|].
  split; [reflexivity|].
  split.
  - intros i j Hj. apply (proj1 (running_peak_is_max ps i) j Hj).
  - intros i. apply (proj2 (running_peak_is_max ps i)).
Qed.

(** ** Buckets *)

Lemma slice_to_nonempty (n : nat) (c : string) :
  nonempty c = true -> nonempty (slice_to (S n) c) = true.
Proof. destruct c; [discriminate | reflexivity]. Qed.

Lemma cal_step_bucket (cal : gmap string Q) (t : Trade) :
  cal_step cal t = bucket_step cal_key cal t.
Proof.
  unfold cal_step, bucket_step, cal_key.
  destruct (close_time t) as [c|]; [|reflexivity].
  destruct (nonempty c) eqn:E; [|reflexivity].
  rewrite (slice_to_nonempty 9 c E). reflexivity.
Qed.

Lemma monthly_step_bucket (monthly : gmap string Q) (t : Trade) :
  monthly_step monthly t = bucket_step month_key monthly t.
Proof.
  unfold monthly_step, bucket_step, month_key.
  destruct (close_time t) as [c|]; [|reflexivity].
  destruct (nonempty c); reflexivity.
Qed.

Lemma hours_step_slot (hours : gmap string Q) (t : Trade) :
  hours_step hours t = slot_step hour_key hours t.
Proof.
  unfold hours_step, slot_step, hour_key.
  destruct (open_time t) as [o|]; [|reflexivity].
  destruct (nonempty o); [|reflexivity].
  destruct (strptime (slice_to 19 o)) as [dt|e]; [|reflexivity].
  cbn [mbind exc_bind]. unfold getitem.
  destruct (hours !! str (hour dt)); reflexivity.
Qed.

Lemma days_step_slot (days : gmap string Q) (t : Trade) :
  days_step days t = slot_step day_key days t.
Proof.
  unfold days_step, slot_step, day_key.
  destruct (open_time t) as [o|]; [|reflexivity].
  destruct (nonempty o); [|reflexivity].
  destruct (strptime (slice_to 19 o)) as [dt|e]; [|reflexivity].
  cbn [mbind exc_bind]. unfold list_getitem.
  destruct (nth_error day_names (weekday dt)) as [name|]; [|reflexivity].
  cbn [mbind exc_bind]. unfold getitem.
  destruct (days !! name); reflexivity.
Qed.

Lemma fold_left_ext_step {A B : Type} (f g : A -> B -> A) (l : list B) (a : A) :
  (forall x y, f x y = g x y) -> fold_left f l a = fold_left g l a.
Proof.
  intros H. revert a. induction l as [|y l IH]; intros a; simpl; [reflexivity|].
  rewrite H. apply IH.
Qed.

Lemma contributions_cons (key : Trade -> option string) (k : string)
    (t : Trade) (ts : list Trade) :
  contributions key k (t :: ts)
  = if bool_decide (key t = Some k)
    then profit t :: contributions key k ts
    else contributions key k ts.
Proof.
  unfold contributions. simpl. destruct (bool_decide (key t = Some k)); reflexivity.
Qed.

Lemma contributions_app (key : Trade -> option string) (k : string)
    (l1 l2 : list Trade) :
  contributions key k (l1 ++ l2) = contributions key k l1 ++ contributions key k l2.
Proof.
  unfold contributions. rewrite List.filter_app, map_app. reflexivity.
Qed.

(** What a growing table holds under a key after the loop. *)
Lemma bucket_fold_lookup (key : Trade -> option string) (k : string)
    (ts : list Trade) (m : gmap string Q) :
  fold_left (bucket_step key) ts m !! k
  = match contributions key k ts with
    | [] => m !! k
    | ps => Some (rounded_sum (default 0 (m !! k)) ps)
    end.
Proof.
  revert m. induction ts as [|t ts IH]; intros m; [reflexivity|].
  simpl fold_left. rewrite IH, contributions_cons.
  unfold bucket_step. destruct (key t) as [k'|] eqn:Ek.
  - destruct (decide (k' = k)) as [->|Hne].
    + rewrite bool_decide_eq_true_2 by reflexivity.
      rewrite lookup_insert_eq. simpl.
      destruct (contributions key k ts); reflexivity.
    + rewrite bool_decide_eq_false_2 by congruence.
      rewrite lookup_insert_ne by exact Hne. reflexivity.
  - rewrite bool_decide_eq_false_2 by discriminate. reflexivity.
Qed.

(** What a table with fixed slots holds under a key after the loop. *)
Lemma slot_fold_lookup (key : Trade -> option string) (k : string)
    (ts : list Trade) (m : gmap string Q) :
  fold_left (slot_step key) ts m !! k
  = match m !! k with
    | Some v => Some (rounded_sum v (contributions key k ts))
    | None => None
    end.
Proof.
  revert m. induction ts as [|t ts IH]; intros m.
  { simpl. destruct (m !! k); reflexivity. }
  simpl fold_left. rewrite IH, contributions_cons.
  unfold slot_step at 1. destruct (key t) as [k'|] eqn:Ek.
  - destruct (decide (k' = k)) as [->|Hne].
    + rewrite bool_decide_eq_true_2 by reflexivity.
      destruct (m !! k) as [v|] eqn:Em.
      * rewrite lookup_insert_eq. reflexivity.
      * rewrite Em. reflexivity.
    + rewrite bool_decide_eq_false_2 by congruence.
      destruct (m !! k') as [v'|]; [|reflexivity].
      rewrite lookup_insert_ne by exact Hne. reflexivity.
  - rewrite bool_decide_eq_false_2 by discriminate. reflexivity.
Qed.

Lemma slot_fold_dom (key : Trade -> option string)
    (ts : list Trade) (m : gmap string Q) :
  dom (fold_left (slot_step key) ts m) = dom m.
Proof.
  revert m. induction ts as [|t ts IH]; intros m; [reflexivity|].
  simpl. rewrite IH. unfold slot_step.
  destruct (key t) as [k|]; [|reflexivity].
  destruct (m !! k) as [v|] eqn:Em; [|reflexivity].
  apply dom_insert_lookup_L. rewrite Em. eauto.
Qed.

Lemma calendar_of_bucket (trades : list Trade) :
  calendar_of trades = fold_left (bucket_step cal_key) trades ∅.
Proof. apply fold_left_ext_step, cal_step_bucket. Qed.

Lemma monthly_of_bucket (trades : list Trade) :
  monthly_of trades = fold_left (bucket_step month_key) trades ∅.
Proof. apply fold_left_ext_step, monthly_step_bucket. Qed.

Lemma hours_of_slot (trades : list Trade) :
  hours_of trades = fold_left (slot_step hour_key) trades hours_init.
Proof. apply fold_left_ext_step, hours_step_slot. Qed.

Lemma days_of_slot (trades : list Trade) :
  days_of trades = fold_left (slot_step day_key) trades days_init.
Proof. apply fold_left_ext_step, days_step_slot. Qed.

(** C8.  The calendar loop leaves the table alone on a trade with no
    [close_time]; on any other trade it adds the profit to the entry under
    the first 10 characters of [close_time] and rounds the new value to two
    decimals.  So after the loop a key holds the running sum, rounded after
    every contribution, of the profits of the trades with that key, and a
    key no trade has is absent.  Profits 30 and -10 closed at
    2024-01-05T10:00:00 and 2024-01-05T15:00:00 give 20 under 2024-01-05. *)
Theorem calendar_keys_and_rounding :
  (forall (cal : gmap string Q) (t : Trade),
     close_time t = None \/ close_time t = Some EmptyString ->
     cal_step cal t = cal)
  /\ (forall (cal : gmap string Q) (t : Trade) (c : string),
        close_time t = Some c -> c <> EmptyString ->
        cal_step cal t
        = <[slice_to 10 c := round (default 0 (cal !! slice_to 10 c) + profit t) 2]> cal)
  /\ (forall (trades : list Trade) (snaps : list Snapshot) (k : string),
        exists r,
          assemble trades snaps = Ok r
          /\ calendar r !! k
             = match contributions cal_key k trades with
               | [] => None
               | ps => Some (rounded_sum 0 ps)
               end)
  /\ (exists r,
        assemble [trade_closed "2024-01-05T10:00:00" 30;
                  trade_closed "2024-01-05T15:00:00" (-10)] [] = Ok r
        /\ calendar r !! "2024-01-05"%string = Some 20).
Proof.
  split; [|split; [|split]].
  - intros cal t [H|H]; unfold cal_step; rewrite H; reflexivity.
  - intros cal t c H Hc. unfold cal_step. rewrite H.
    destruct c as [|a c]; [congruence|]. reflexivity.
  - intros trades snaps k. unfold assemble. rewrite compute_stats_total.
    eexists. split; [reflexivity|]. cbn [calendar].
    rewrite calendar_of_bucket, bucket_fold_lookup, lookup_empty. reflexivity.
  - eexists. split; [vm_compute; reflexivity|]. vm_compute. reflexivity.
Qed.

(** ** Heat maps *)

Lemma hours_init_dom : dom hours_init = list_to_set hour_names.
Proof.
  unfold hours_init. rewrite dom_list_to_map_L. reflexivity.
Qed.

Lemma days_init_dom : dom days_init = list_to_set day_names.
Proof.
  unfold days_init. rewrite dom_list_to_map_L. reflexivity.
Qed.

Lemma zero_table_lookup (names : list string) (k : string) (v : Q) :
  (list_to_map (map (fun d => (d, 0)) names) : gmap string Q) !! k = Some v -> v = 0.
Proof.
  intros H. apply elem_of_list_to_map_2 in H.
  apply list_elem_of_In, in_map_iff in H. destruct H as (d & E & _).
  congruence.
Qed.

Lemma hours_init_lookup (k : string) (v : Q) : hours_init !! k = Some v -> v = 0.
Proof.
  unfold hours_init. rewrite <- (map_map str (fun d => (d, 0))).
  apply zero_table_lookup.
Qed.

Lemma days_init_lookup (k : string) (v : Q) : days_init !! k = Some v -> v = 0.
Proof. apply zero_table_lookup. Qed.

Lemma slot_untouched (key : Trade -> option string) (init : gmap string Q)
    (trades : list Trade) (k : string) :
  (forall v, init !! k = Some v -> v = 0) ->
  k ∈ dom (fold_left (slot_step key) trades init) ->
  contributions key k trades = [] ->
  fold_left (slot_step key) trades init !! k = Some 0.
Proof.
  intros Hz Hk Hc. rewrite slot_fold_dom in Hk.
  apply elem_of_dom in Hk as [v Hv].
  rewrite slot_fold_lookup, Hv, Hc. rewrite (Hz v Hv). reflexivity.
Qed.

(** C5.  On no trades [compute_stats] returns the empty dict and raises
    nothing.  For every trade sequence the response has the hours table
    with exactly the 24 keys "0" to "23" and the days table with exactly
    the 7 keys Mon to Sun; a key to which no trade contributes holds 0. *)
Theorem empty_summary_and_fixed_heat_map_keys :
  compute_stats [] = Ok None
  /\ forall (trades : list Trade) (snaps : list Snapshot),
       exists r,
         assemble trades snaps = Ok r
         /\ (trades = [] -> stats r = None)
         /\ dom (hours r) = list_to_set hour_names
         /\ size (hours r) = 24%nat
         /\ dom (days r) = list_to_set day_names
         /\ size (days r) = 7%nat
         /\ (forall k, k ∈ dom (hours r) ->
               contributions hour_key k trades = [] -> hours r !! k = Some 0)
         /\ (forall k, k ∈ dom (days r) ->
               contributions day_key k trades = [] -> days r !! k = Some 0).
Proof.
  split; [reflexivity|]. intros trades snaps.
  unfold assemble. rewrite compute_stats_total.
  eexists. split; [reflexivity|]. cbn [stats hours days].
  rewrite hours_of_slot, days_of_slot.
  assert (Hh : dom (fold_left (slot_step hour_key) trades hours_init)
               = list_to_set hour_names)
    by (rewrite slot_fold_dom; apply hours_init_dom).
  assert (Hd : dom (fold_left (slot_step day_key) trades days_init)
               = list_to_set day_names)
    by (rewrite slot_fold_dom; apply days_init_dom).
  split; [intros ->; reflexivity|].
  split; [exact Hh|].
  split; [rewrite <- size_dom, Hh; vm_compute; reflexivity|].
  split; [exact Hd|].
  split; [rewrite <- size_dom, Hd; vm_compute; reflexivity|].
  split.
  - intros k. apply slot_untouched, hours_init_lookup.
  - intros k. apply slot_untouched, days_init_lookup.
Qed.

(** ** Malformed timestamps *)

Lemma hours_step_unparsable (hours : gmap string Q) (t : Trade) (o : string) (e : exn) :
  open_time t = Some o -> strptime (slice_to 19 o) = Raise e ->
  hours_step hours t = hours.
Proof.
  intros Ho Hp. unfold hours_step. rewrite Ho, Hp.
  destruct (nonempty o); reflexivity.
Qed.

Lemma days_step_unparsable (days : gmap string Q) (t : Trade) (o : string) (e : exn) :
  open_time t = Some o -> strptime (slice_to 19 o) = Raise e ->
  days_step days t = days.
Proof.
  intros Ho Hp. unfold days_step. rewrite Ho, Hp.
  destruct (nonempty o); reflexivity.
Qed.

Lemma bucket_lookup_through (key : Trade -> option string) (k : string)
    (l1 l2 : list Trade) (t : Trade) :
  key t = Some k ->
  fold_left (bucket_step key) (l1 ++ t :: l2) ∅ !! k
  = Some (rounded_sum 0
            (contributions key k l1 ++ profit t :: contributions key k l2)).
Proof.
  intros Hk.
  rewrite bucket_fold_lookup, contributions_app, contributions_cons.
  rewrite bool_decide_eq_true_2 by exact Hk. rewrite lookup_empty.
  destruct (contributions key k l1); reflexivity.
Qed.

(** C4.  A trade whose [open_time] does not parse and whose [close_time]
    is there: the response is built all the same (nothing is raised), the
    trade is counted in [trade_count] and [total_trades], the hours and
    days tables are those of the other trades, and its profit is one of
    the contributions, in its place, to the calendar entry under the first
    10 characters of its [close_time] and to the monthly entry under the
    first 7. *)
Theorem unparsable_open_time_skips_heat_maps_only
    (l1 l2 : list Trade) (t : Trade) (snaps : list Snapshot)
    (o c : string) (e : exn) :
  open_time t = Some o ->
  strptime (slice_to 19 o) = Raise e ->
  close_time t = Some c ->
  c <> EmptyString ->
  exists r,
    assemble (l1 ++ t :: l2) snaps = Ok r
    /\ trade_count r = S (length (l1 ++ l2))
    /\ (exists s, stats r = Some s /\ total_trades s = S (length (l1 ++ l2)))
    /\ hours r = hours_of (l1 ++ l2)
    /\ days r = days_of (l1 ++ l2)
    /\ calendar r !! slice_to 10 c
       = Some (rounded_sum 0
                 (contributions cal_key (slice_to 10 c) l1
                  ++ profit t :: contributions cal_key (slice_to 10 c) l2))
    /\ monthly r !! slice_to 7 c
       = Some (rounded_sum 0
                 (contributions month_key (slice_to 7 c) l1
                  ++ profit t :: contributions month_key (slice_to 7 c) l2)).
Proof.
  intros Ho Hp Hc Hne.
  assert (Hlen : length (l1 ++ t :: l2) = S (length (l1 ++ l2))).
  { rewrite !length_app. simpl. lia. }
  assert (Hck : cal_key t = Some (slice_to 10 c)).
  { unfold cal_key. rewrite Hc. destruct c; [congruence | reflexivity]. }
  assert (Hmk : month_key t = Some (slice_to 7 c)).
  { unfold month_key. rewrite Hc. destruct c; [congruence | reflexivity]. }
  unfold assemble. rewrite compute_stats_total.
  eexists. split; [reflexivity|].
  cbn [trade_count stats hours days calendar monthly].
  split; [exact Hlen|]. split.
  { destruct (l1 ++ t :: l2) as [|u us] eqn:E; [discriminate Hlen|].
    eexists. split; [reflexivity|].
    unfold stats_of. cbn [total_trades]. rewrite length_map. exact Hlen. }
  split.
  { unfold hours_of. rewrite !fold_left_app. simpl.
    rewrite (hours_step_unparsable _ t o e Ho Hp). reflexivity. }
  split.
  { unfold days_of. rewrite !fold_left_app. simpl.
    rewrite (days_step_unparsable _ t o e Ho Hp). reflexivity. }
  split.
  - rewrite calendar_of_bucket. apply bucket_lookup_through, Hck.
  - rewrite monthly_of_bucket. apply bucket_lookup_through, Hmk.
Qed.

(** The statement above at a trade opened at "garbage", after one that
    parses. *)
Lemma unparsable_open_time_skips_heat_maps_only_witness :
  exists r,
    assemble ([trade_at "2024-01-04 09:30:00" "2024-01-05 10:00:00" 30]
              ++ trade_at "garbage" "2024-01-05 15:00:00" (-10) :: []) [] = Ok r
    /\ trade_count r = 2%nat
    /\ (exists s, stats r = Some s /\ total_trades s = 2%nat)
    /\ hours r = hours_of [trade_at "2024-01-04 09:30:00" "2024-01-05 10:00:00" 30]
    /\ days r = days_of [trade_at "2024-01-04 09:30:00" "2024-01-05 10:00:00" 30]
    /\ calendar r !! "2024-01-05"%string = Some (rounded_sum 0 ([30] ++ [-10]))
    /\ monthly r !! "2024-01"%string = Some (rounded_sum 0 ([30] ++ [-10])).
Proof.
  refine (unparsable_open_time_skips_heat_maps_only
            [trade_at "2024-01-04 09:30:00" "2024-01-05 10:00:00" 30] []
            (trade_at "garbage" "2024-01-05 15:00:00" (-10)) []
            "garbage" "2024-01-05 15:00:00" ValueError _ _ _ _).
  - reflexivity.
  - reflexivity.
  - reflexivity.
  - discriminate.
Defined.

(** ** Equity curve *)

(** C9.  The equity curve of the response has one point per snapshot, in
    the order of the snapshots, and the point at each position carries the
    time, balance and equity of the snapshot at that position. *)
Theorem equity_curve_is_the_snapshots_in_order
    (trades : list Trade) (snaps : list Snapshot) :
  exists r,
    assemble trades snaps = Ok r
    /\ length (equity_curve r) = length snaps
    /\ forall i,
         nth_error (equity_curve r) i
         = option_map
             (fun s => {| ep_time := snapshot_time s;
                          ep_balance := balance s;
                          ep_equity := equity s |})
             (nth_error snaps i).
Proof.
  unfold assemble. rewrite compute_stats_total.
  eexists. split; [reflexivity|]. cbn [equity_curve].
  unfold equity_curve_of. split.
  - apply length_map.
  - intros i. apply nth_error_map.
Qed.

(** * Further properties of the engine *)

(** ** Rounding is monotone *)

Lemma round_half_even_bounds (x : Q) :
  (Qfloor x <= round_half_even x <= Qfloor x + 1)%Z.
Proof.
  unfold round_half_even.
  destruct (Qcompare (x - inject_Z (Qfloor x)) (1 # 2)); [destruct (Z.even _)| |]; lia.
Qed.

Lemma round_half_even_mono (x y : Q) :
  x <= y -> (round_half_even x <= round_half_even y)%Z.
Proof.
  intros H. pose proof (Qfloor_resp_le x y H) as Hf.
  destruct (Z.eq_dec (Qfloor x) (Qfloor y)) as [E|E].
  - unfold round_half_even. rewrite E.
    assert (Hfr : x - inject_Z (Qfloor y) <= y - inject_Z (Qfloor y)).
    { apply Qplus_le_l with (z := inject_Z (Qfloor y)). ring_simplify. exact H. }
    destruct (Qcompare (x - inject_Z (Qfloor y)) (1 # 2)) eqn:Cx;
      destruct (Qcompare (y - inject_Z (Qfloor y)) (1 # 2)) eqn:Cy;
      try (destruct (Z.even (Qfloor y))); try lia; exfalso;
      repeat match goal with
      | C : Qcompare _ _ = Eq |- _ => apply Qeq_alt in C
      | C : Qcompare _ _ = Lt |- _ => apply Qlt_alt in C
      | C : Qcompare _ _ = Gt |- _ => apply Qgt_alt in C
      end; lra.
  - pose proof (round_half_even_bounds x). pose proof (round_half_even_bounds y). lia.
Qed.

Lemma round_as_ratio (x : Q) (n : nat) :
  round x n == round_half_even (x * inject_Z (10 ^ Z.of_nat n)) # Z.to_pos (10 ^ Z.of_nat n).
Proof. unfold round. apply Qred_correct. Qed.

Lemma pow10_pos (n : nat) : (0 < 10 ^ Z.of_nat n)%Z.
Proof. apply Z.pow_pos_nonneg; lia. Qed.

Lemma round_mono (x y : Q) (n : nat) : x <= y -> round x n <= round y n.
Proof.
  intros H. rewrite !round_as_ratio.
  pose proof (pow10_pos n) as Hp.
  unfold Qle. cbn [Qnum Qden].
  apply Z.mul_le_mono_nonneg_r; [lia|].
  apply round_half_even_mono.
  apply Qmult_le_compat_r; [exact H|].
  unfold Qle. simpl. lia.
Qed.

(** ** Counts and win rate *)

Lemma filter_length_none {A : Type} (f : A -> bool) (l : list A) :
  length (List.filter f l) = 0%nat <-> forall x, In x l -> f x = false.
Proof.
  induction l as [|a l IH]; simpl.
  - split; [intros _ x []|reflexivity].
  - destruct (f a) eqn:E; simpl.
    + split; [lia|]. intros H. specialize (H a (or_introl eq_refl)). congruence.
    + rewrite IH. split.
      * intros H x [<-|Hx]; [exact E | apply H, Hx].
      * intros H x Hx. apply H. right. exact Hx.
Qed.

Lemma of_nat_le (a b : nat) : (a <= b)%nat -> of_nat a <= of_nat b.
Proof. intros H. unfold of_nat, Qle. simpl. lia. Qed.

Lemma win_ratio_range (w n : nat) :
  (w <= n)%nat -> (0 < n)%nat ->
  0 <= of_nat w / of_nat n * 100 /\ of_nat w / of_nat n * 100 <= 100.
Proof.
  intros Hw Hn.
  assert (Hn0 : 0 < of_nat n) by (unfold of_nat, Qlt; simpl; lia).
  assert (Hw0 : 0 <= of_nat w) by (unfold of_nat, Qle; simpl; lia).
  assert (H1 : of_nat w / of_nat n <= 1).
  { apply Qle_shift_div_r; [exact Hn0|]. rewrite Qmult_1_l. apply of_nat_le, Hw. }
  assert (H0 : 0 <= of_nat w / of_nat n).
  { apply Qle_shift_div_l; [exact Hn0|]. rewrite Qmult_0_l. exact Hw0. }
  split; lra.
Qed.

(** X1.  For every non-empty trade sequence [total_trades] is the number
    of trades; [win_count] and [loss_count] fall short of it by the number
    of trades with profit 0, so they add up to it exactly when no trade
    has profit 0; and [win_rate] lies between 0 and 100. *)
Theorem counts_and_win_rate (t : Trade) (ts : list Trade) :
  let ps := map profit (t :: ts) in
  exists s,
    compute_stats (t :: ts) = Ok (Some s)
    /\ total_trades s = length (t :: ts)
    /\ (win_count s + loss_count s
        + length (List.filter (fun p => Qeq_bool p 0) ps))%nat = total_trades s
    /\ ((win_count s + loss_count s)%nat = total_trades s
        <-> forall p, In p ps -> ~ p == 0)
    /\ 0 <= win_rate s <= 100.
Proof.
  intros ps. eexists. split; [apply compute_stats_cons|].
  fold ps. unfold stats_of.
  cbn [total_trades win_count loss_count win_rate].
  pose proof (win_loss_zero_partition ps) as Hp.
  split; [apply length_map|]. split; [exact Hp|]. split.
  - split.
    + intros H p Hin Hz.
      assert (Hn : length (List.filter (fun p => Qeq_bool p 0) ps) = 0%nat) by lia.
      pose proof (proj1 (filter_length_none _ _) Hn p Hin) as E.
      apply Qeq_bool_neq in E. contradiction.
    + intros H.
      assert (Hn : length (List.filter (fun p => Qeq_bool p 0) ps) = 0%nat).
      { apply filter_length_none. intros p Hin.
        destruct (Qeq_bool p 0) eqn:E; [|reflexivity].
        apply Qeq_bool_iff in E. destruct (H p Hin E). }
      lia.
  - pose proof (List.filter_length_le is_wins ps) as Hle.
    destruct (win_ratio_range (length (List.filter is_wins ps)) (length ps) Hle)
      as [H0 H100]; [unfold ps; simpl; lia|].
    split.
    + change 0 with (round 0 1). apply round_mono, H0.
    + change 100 with (round 100 1) at 2. apply round_mono, H100.
Qed.

(** ** Streaks are longest runs *)

Lemma snoc_cases {A : Type} (l : list A) : l = [] \/ exists l' a, l = l' ++ [a].
Proof.
  induction l as [|a l' _] using rev_ind; [left; reflexivity|].
  right. exists l', a. reflexivity.
Qed.

Lemma streak_as_run_steps (ps : list Q) (s : Streak) :
  let s' := fold_left streak_step ps s in
  (st_cur_w s', st_max_w s') = fold_left (run_step is_wins) ps (st_cur_w s, st_max_w s)
  /\ (st_cur_l s', st_max_l s') = fold_left (run_step not_wins) ps (st_cur_l s, st_max_l s).
Proof.
  revert s. induction ps as [|p ps IH]; intros s; [split; reflexivity|].
  cbn zeta. simpl fold_left. destruct (IH (streak_step s p)) as [Hw Hl].
  rewrite Hw, Hl. unfold streak_step, run_step, not_wins, is_wins.
  destruct (0 <? p); split; reflexivity.
Qed.

Lemma end_run_snoc (f : Q -> bool) (l : list Q) (p : Q) (run : list Q) :
  is_end_run f (l ++ [p]) run ->
  run = [] \/ exists run', run = run' ++ [p] /\ f p = true /\ is_end_run f l run'.
Proof.
  intros [[l1 E] Hf]. destruct (snoc_cases run) as [->|(run' & q & ->)]; [left; reflexivity|].
  right. rewrite app_assoc in E. apply app_inj_tail in E as [-> <-].
  rewrite forallb_app in Hf. apply andb_true_iff in Hf as [Hr Hq].
  simpl in Hq. rewrite andb_true_r in Hq.
  exists run'. repeat split; eauto.
Qed.

Lemma run_snoc (f : Q -> bool) (l : list Q) (p : Q) (run : list Q) :
  is_run f (l ++ [p]) run -> is_end_run f (l ++ [p]) run \/ is_run f l run.
Proof.
  intros [(l1 & l2 & E) Hf]. destruct (snoc_cases l2) as [->|(l2' & q & ->)].
  - left. rewrite app_nil_r in E. split; eauto.
  - right. rewrite !app_assoc in E. apply app_inj_tail in E as [-> _].
    rewrite <- app_assoc. split; eauto.
Qed.

Lemma run_extend (f : Q -> bool) (l : list Q) (p : Q) (run : list Q) :
  is_run f l run -> is_run f (l ++ [p]) run.
Proof.
  intros [(l1 & l2 & ->) Hf]. split; [|exact Hf].
  exists l1, (l2 ++ [p]). rewrite <- !app_assoc. reflexivity.
Qed.

Lemma end_run_is_run (f : Q -> bool) (l run : list Q) :
  is_end_run f l run -> is_run f l run.
Proof.
  intros [[l1 ->] Hf]. split; [|exact Hf]. exists l1, []. rewrite app_nil_r. reflexivity.
Qed.

(** What the two numbers of a counter are after the scan. *)
Lemma run_fold_spec (f : Q -> bool) (ps : list Q) :
  let c := fold_left (run_step f) ps (0%nat, 0%nat) in
  (forall run, is_end_run f ps run -> (length run <= fst c)%nat)
  /\ (exists run, is_end_run f ps run /\ length run = fst c)
  /\ (forall run, is_run f ps run -> (length run <= snd c)%nat)
  /\ (exists run, is_run f ps run /\ length run = snd c)
  /\ (fst c <= snd c)%nat.
Proof.
  induction ps as [|p l IH] using rev_ind.
  - cbn. repeat split.
    + intros run [[l1 E] _]. symmetry in E. apply app_eq_nil in E as [_ ->]. reflexivity.
    + exists []. repeat split. exists []. reflexivity.
    + intros run [(l1 & l2 & E) _]. symmetry in E.
      apply app_eq_nil in E as [_ E]. apply app_eq_nil in E as [-> _]. reflexivity.
    + exists []. repeat split. exists [], []. reflexivity.
    + lia.
  - cbn zeta in *. rewrite fold_left_app. cbn [fold_left].
    destruct (fold_left (run_step f) l (0%nat, 0%nat)) as [cur mx].
    cbn [fst snd] in IH. destruct IH as (He & (re & Hre & Hrel) & Hr & (rm & Hrm & Hrml) & Hle).
    unfold run_step. cbn [fst snd]. destruct (f p) eqn:Ep; cbn [fst snd].
    + assert (Hend : forall run, is_end_run f (l ++ [p]) run -> (length run <= S cur)%nat).
      { intros run H. apply end_run_snoc in H as [->|(run' & -> & _ & H')]; [simpl; lia|].
        rewrite length_app. simpl. specialize (He run' H'). lia. }
      assert (Hnew : is_end_run f (l ++ [p]) (re ++ [p])).
      { destruct Hre as [[l1 ->] Hf]. split.
        - exists l1. rewrite app_assoc. reflexivity.
        - rewrite forallb_app, Hf. simpl. rewrite Ep. reflexivity. }
      repeat split.
      * exact Hend.
      * exists (re ++ [p]). split; [exact Hnew|]. rewrite length_app. simpl. lia.
      * intros run H. apply run_snoc in H as [H|H].
        -- specialize (Hend run H). lia.
        -- specialize (Hr run H). lia.
      * destruct (Nat.max_spec mx (S cur)) as [[Hlt ->]|[Hge ->]].
        -- exists (re ++ [p]). split; [apply end_run_is_run, Hnew|].
           rewrite length_app. simpl. lia.
        -- exists rm. split; [apply run_extend, Hrm | exact Hrml].
      * lia.
    + assert (Hend : forall run, is_end_run f (l ++ [p]) run -> run = []).
      { intros run H. apply end_run_snoc in H as [->|(run' & _ & Hp & _)]; [reflexivity|].
        congruence. }
      repeat split.
      * intros run H. rewrite (Hend run H). simpl. lia.
      * exists []. repeat split. exists (l ++ [p]). rewrite app_nil_r. reflexivity.
      * intros run H. apply run_snoc in H as [H|H].
        -- rewrite (Hend run H). simpl. lia.
        -- apply Hr, H.
      * exists rm. split; [apply run_extend, Hrm | exact Hrml].
      * lia.
Qed.

Lemma run_within_filter (f : Q -> bool) (ps run : list Q) :
  is_run f ps run -> (length run <= length (List.filter f ps))%nat.
Proof.
  intros [(l1 & l2 & ->) Hf]. rewrite !List.filter_app, !length_app.
  assert (E : List.filter f run = run).
  { apply forallb_filter_id. exact Hf. }
  rewrite E. lia.
Qed.

(** X2.  [max_consec_wins] is the length of the longest stretch of
    consecutive trades with profit > 0 in the order supplied, and
    [max_consec_losses] that of the longest stretch of consecutive trades
    that are not wins (profit <= 0, zero included).  So
    [max_consec_wins <= win_count], while [max_consec_losses] is bounded
    by [total_trades - win_count], not by [loss_count]. *)
Theorem streaks_are_longest_runs (t : Trade) (ts : list Trade) :
  let ps := map profit (t :: ts) in
  exists s,
    compute_stats (t :: ts) = Ok (Some s)
    /\ (forall run, is_run is_wins ps run -> (length run <= max_consec_wins s)%nat)
    /\ (exists run, is_run is_wins ps run /\ length run = max_consec_wins s)
    /\ (forall run, is_run not_wins ps run -> (length run <= max_consec_losses s)%nat)
    /\ (exists run, is_run not_wins ps run /\ length run = max_consec_losses s)
    /\ (max_consec_wins s <= win_count s)%nat
    /\ (max_consec_losses s <= total_trades s - win_count s)%nat.
Proof.
  intros ps. eexists. split; [apply compute_stats_cons|].
  fold ps. unfold stats_of.
  cbn [max_consec_wins max_consec_losses win_count total_trades].
  destruct (streak_as_run_steps ps streak_init) as [Hw Hl]. cbn zeta in Hw, Hl.
  cbn [streak_init st_cur_w st_max_w st_cur_l st_max_l] in Hw, Hl.
  pose proof (run_fold_spec is_wins ps) as Sw.
  pose proof (run_fold_spec not_wins ps) as Sl.
  cbn zeta in Sw, Sl. rewrite <- Hw in Sw. rewrite <- Hl in Sl.
  cbn [fst snd] in Sw, Sl.
  destruct Sw as (_ & _ & Hw1 & Hw2 & _). destruct Sl as (_ & _ & Hl1 & Hl2 & _).
  split; [exact Hw1|]. split; [exact Hw2|]. split; [exact Hl1|]. split; [exact Hl2|].
  split.
  - destruct Hw2 as (run & Hrun & <-). apply run_within_filter, Hrun.
  - destruct Hl2 as (run & Hrun & <-).
    pose proof (run_within_filter _ _ _ Hrun) as H.
    pose proof (List.filter_length is_wins ps) as Hp.
    unfold not_wins in H. lia.
Qed.

(** ** Drawdown bounds *)

Lemma sum_snoc (l : list Q) (p : Q) : sum (l ++ [p]) = sum l + p.
Proof. unfold sum. rewrite fold_left_app. reflexivity. Qed.

Lemma losses_snoc (l : list Q) (p : Q) :
  sum (List.filter is_losses (l ++ [p]))
  = if is_losses p then sum (List.filter is_losses l) + p
    else sum (List.filter is_losses l).
Proof.
  rewrite List.filter_app. simpl. destruct (is_losses p).
  - apply sum_snoc.
  - rewrite app_nil_r. reflexivity.
Qed.

(** While the loop runs, the current drawdown and the largest one so far
    stay between 0 and the losses taken so far. *)
Lemma drawdown_loop_bounds (ps : list Q) :
  let st := fold_left drawdown_step ps drawdown_init in
  let taken := - sum (List.filter is_losses ps) in
  0 <= dd_peak st - dd_running st <= taken /\ 0 <= dd_max st <= taken.
Proof.
  induction ps as [|p l IH] using rev_ind.
  - cbn. lra.
  - cbn zeta in *. rewrite fold_left_app, losses_snoc. cbn [fold_left].
    set (st := fold_left drawdown_step l drawdown_init) in *.
    set (L := sum (List.filter is_losses l)) in *.
    unfold drawdown_step. cbn [dd_peak dd_max dd_running].
    unfold is_losses.
    repeat match goal with
           | |- context [?a <? ?b] =>
             let E := fresh "E" in
             destruct (a <? b) eqn:E; [apply ltb_lt in E | apply ltb_ge in E]
           end; lra.
Qed.

(** X3.  The reported [max_drawdown] is never negative, and with no
    losing trade it is 0. *)
Theorem max_drawdown_is_never_negative (t : Trade) (ts : list Trade) :
  exists s,
    compute_stats (t :: ts) = Ok (Some s)
    /\ 0 <= max_drawdown s
    /\ (loss_count s = 0%nat -> max_drawdown s = 0).
Proof.
  eexists. split; [apply compute_stats_cons|].
  set (ps := map profit (t :: ts)).
  unfold stats_of. cbn [max_drawdown loss_count].
  pose proof (drawdown_loop_bounds ps) as [_ [H0 HL]]. cbn zeta in H0, HL.
  split.
  - change 0 with (round 0 2). apply round_mono, H0.
  - intros Hc. apply filter_nil_of_length in Hc.
    rewrite Hc in HL. change (sum []) with 0 in HL.
    rewrite (round_wd _ 0); [reflexivity|]. lra.
Qed.

(** ** What does not depend on the order of the trades *)

Lemma filter_perm {A : Type} (f : A -> bool) (l l' : list A) :
  Permutation l l' -> Permutation (List.filter f l) (List.filter f l').
Proof.
  induction 1 as [|x l l' _ IH|x y l|l l' l'' _ IH1 _ IH2]; simpl.
  - constructor.
  - destruct (f x); [constructor|]; exact IH.
  - destruct (f x), (f y); try reflexivity. constructor.
  - etransitivity; eassumption.
Qed.

Lemma stats_of_perm (ps ps' : list Q) :
  Permutation ps ps' -> same_order_free_fields (stats_of ps) (stats_of ps').
Proof.
  intros H.
  pose proof (Permutation_length H) as Hlen.
  pose proof (Permutation_length (filter_perm is_wins _ _ H)) as Hwlen.
  pose proof (Permutation_length (filter_perm is_losses _ _ H)) as Hllen.
  unfold same_order_free_fields, stats_of.
  cbn [total_trades win_count loss_count win_rate].
  rewrite Hlen, Hwlen, Hllen. repeat split.
Qed.

(** X4.  Supplying the same trades in another order changes none of
    [total_trades], [win_count], [loss_count] and [win_rate].  The streaks
    and the drawdown do depend on the order: the profits 10, -5, -5 and
    -5, 10, -5 give different [max_drawdown]s, and 10, 10, -10 and
    10, -10, 10 different [max_consec_wins]. *)
Theorem order_free_fields :
  (forall ts ts' : list Trade,
     Permutation ts ts' ->
     match compute_stats ts, compute_stats ts' with
     | Ok (Some s), Ok (Some s') => same_order_free_fields s s'
     | Ok None, Ok None => ts = [] /\ ts' = []
     | _, _ => False
     end)
  /\ (exists s s',
        compute_stats (map trade_of_profit [10; -5; -5]) = Ok (Some s)
        /\ compute_stats (map trade_of_profit [-5; 10; -5]) = Ok (Some s')
        /\ max_drawdown s == 10 /\ max_drawdown s' == 5)
  /\ (exists s s',
        compute_stats (map trade_of_profit [10; 10; -10]) = Ok (Some s)
        /\ compute_stats (map trade_of_profit [10; -10; 10]) = Ok (Some s')
        /\ max_consec_wins s = 2%nat /\ max_consec_wins s' = 1%nat).
Proof.
  split; [|split].
  - intros ts ts' H. rewrite !compute_stats_total.
    destruct ts as [|t ts]; destruct ts' as [|t' ts'].
    + split; reflexivity.
    + apply Permutation_nil in H. discriminate H.
    + symmetry in H. apply Permutation_nil in H. discriminate H.
    + apply stats_of_perm, Permutation_map, H.
  - do 2 eexists. split; [vm_compute; reflexivity|].
    split; [vm_compute; reflexivity|]. split; reflexivity.
  - do 2 eexists. split; [vm_compute; reflexivity|].
    split; [vm_compute; reflexivity|]. split; reflexivity.
Qed.

(** ** The per-pair table *)

Lemma pairs_step_add (m : gmap string PairStat) (t : Trade) :
  pairs_step m t
  = <[pair_key t := pair_add (default pair_zero (m !! pair_key t)) (profit t)]> m.
Proof.
  unfold pairs_step, pair_add. fold (pair_key t). fold pair_zero.
  destruct (0 <? profit t); reflexivity.
Qed.

Lemma pairs_fold_lookup (k : string) (ts : list Trade) (m : gmap string PairStat) :
  fold_left pairs_step ts m !! k
  = match contributions (fun t => Some (pair_key t)) k ts with
    | [] => m !! k
    | ps => Some (fold_left pair_add ps (default pair_zero (m !! k)))
    end.
Proof.
  revert m. induction ts as [|t ts IH]; intros m; [reflexivity|].
  simpl fold_left. rewrite IH, contributions_cons, pairs_step_add.
  destruct (decide (pair_key t = k)) as [<-|Hne].
  - rewrite bool_decide_eq_true_2 by reflexivity.
    rewrite lookup_insert_eq. simpl.
    destruct (contributions _ (pair_key t) ts); reflexivity.
  - rewrite bool_decide_eq_false_2 by congruence.
    rewrite lookup_insert_ne by exact Hne. reflexivity.
Qed.

Lemma pair_add_fold (ps : list Q) (e : PairStat) :
  fold_left pair_add ps e
  = {| ps_wins := ps_wins e + length (List.filter is_wins ps);
       ps_losses := ps_losses e + length (List.filter not_wins ps);
       ps_profit := rounded_sum (ps_profit e) ps |}.
Proof.
  revert e. induction ps as [|p ps IH]; intros e.
  - destruct e. simpl. f_equal; lia.
  - simpl fold_left. rewrite IH. unfold pair_add, not_wins, is_wins. simpl.
    destruct (0 <? p); simpl; f_equal; lia.
Qed.

(** X5.  The per-pair table has an entry exactly for the keys some trade
    has (its [pair], or "Unknown" when that is missing or empty).  The
    entry's [wins] is the number of those trades with profit > 0, its
    [losses] the number of the others (profit <= 0), and its [profit] their
    running sum rounded to two decimals after every trade. *)
Theorem pairs_table_entries (trades : list Trade) (snaps : list Snapshot) (k : string) :
  exists r,
    assemble trades snaps = Ok r
    /\ pairs r !! k
       = match contributions (fun t => Some (pair_key t)) k trades with
         | [] => None
         | ps => Some {| ps_wins := length (List.filter is_wins ps);
                         ps_losses := length (List.filter not_wins ps);
                         ps_profit := rounded_sum 0 ps |}
         end.
Proof.
  unfold assemble. rewrite compute_stats_total.
  eexists. split; [reflexivity|]. cbn [pairs].
  unfold pairs_of. rewrite pairs_fold_lookup, lookup_empty.
  destruct (contributions _ k trades) as [|p ps]; [reflexivity|].
  rewrite pair_add_fold. reflexivity.
Qed.

Lemma pairs_total_insert_fresh (g : PairStat -> nat) (m : gmap string PairStat)
    (k : string) (e : PairStat) :
  m !! k = None -> pairs_total g (<[k := e]> m) = (g e + pairs_total g m)%nat.
Proof.
  intros H. unfold pairs_total.
  rewrite map_fold_insert_L; [reflexivity| |exact H].
  intros. lia.
Qed.

Lemma pairs_total_insert (g : PairStat -> nat) (m : gmap string PairStat)
    (k : string) (e : PairStat) :
  g pair_zero = 0%nat ->
  (pairs_total g (<[k := e]> m) + g (default pair_zero (m !! k)))%nat
  = (g e + pairs_total g m)%nat.
Proof.
  intros Hz. destruct (m !! k) as [old|] eqn:E; simpl.
  - rewrite <- insert_delete_eq.
    rewrite pairs_total_insert_fresh by apply lookup_delete_eq.
    assert (Hm : pairs_total g m = (g old + pairs_total g (delete k m))%nat).
    { unfold pairs_total.
      rewrite (map_fold_delete_L (fun _ e acc => (g e + acc)%nat) 0%nat k old m);
        [reflexivity| |exact E].
      intros. lia. }
    rewrite Hm. lia.
  - rewrite pairs_total_insert_fresh by exact E. lia.
Qed.

Lemma pairs_total_step_wins (m : gmap string PairStat) (t : Trade) :
  pairs_total ps_wins (pairs_step m t)
  = (pairs_total ps_wins m + if is_wins (profit t) then 1 else 0)%nat.
Proof.
  rewrite pairs_step_add.
  pose proof (pairs_total_insert ps_wins m (pair_key t)
                (pair_add (default pair_zero (m !! pair_key t)) (profit t))
                eq_refl) as H.
  set (e := default pair_zero (m !! pair_key t)) in *.
  change (ps_wins (pair_add e (profit t)))
    with (if 0 <? profit t then S (ps_wins e) else ps_wins e) in H.
  unfold is_wins. destruct (0 <? profit t); lia.
Qed.

Lemma pairs_total_step_losses (m : gmap string PairStat) (t : Trade) :
  pairs_total ps_losses (pairs_step m t)
  = (pairs_total ps_losses m + if is_wins (profit t) then 0 else 1)%nat.
Proof.
  rewrite pairs_step_add.
  pose proof (pairs_total_insert ps_losses m (pair_key t)
                (pair_add (default pair_zero (m !! pair_key t)) (profit t))
                eq_refl) as H.
  set (e := default pair_zero (m !! pair_key t)) in *.
  change (ps_losses (pair_add e (profit t)))
    with (if 0 <? profit t then ps_losses e else S (ps_losses e)) in H.
  unfold is_wins. destruct (0 <? profit t); lia.
Qed.

Lemma pairs_total_fold (ts : list Trade) (m : gmap string PairStat) :
  pairs_total ps_wins (fold_left pairs_step ts m)
  = (pairs_total ps_wins m + length (List.filter is_wins (map profit ts)))%nat
  /\ pairs_total ps_losses (fold_left pairs_step ts m)
     = (pairs_total ps_losses m + length (List.filter not_wins (map profit ts)))%nat.
Proof.
  revert m. induction ts as [|t ts IH]; intros m; [simpl; lia|].
  simpl fold_left. destruct (IH (pairs_step m t)) as [Hw Hl].
  rewrite Hw, Hl, pairs_total_step_wins, pairs_total_step_losses.
  simpl. unfold not_wins. destruct (is_wins (profit t)); simpl; lia.
Qed.

(** X6.  Over all pairs the [wins] of the per-pair table add up to the
    [win_count] of the summary, and its [losses] to
    [total_trades - win_count]: every trade is booked once, as a win or as
    a loss, so wins and losses together add up to [trade_count].  The
    summary's [loss_count] can be smaller than the table's losses. *)
Theorem pairs_table_totals (trades : list Trade) (snaps : list Snapshot) :
  exists r,
    assemble trades snaps = Ok r
    /\ (pairs_total ps_wins (pairs r) + pairs_total ps_losses (pairs r))%nat
       = trade_count r
    /\ forall s, stats r = Some s ->
         pairs_total ps_wins (pairs r) = win_count s
         /\ pairs_total ps_losses (pairs r) = (total_trades s - win_count s)%nat
         /\ (loss_count s <= pairs_total ps_losses (pairs r))%nat.
Proof.
  unfold assemble. rewrite compute_stats_total.
  eexists. split; [reflexivity|]. cbn [pairs trade_count stats].
  unfold pairs_of. destruct (pairs_total_fold trades ∅) as [Hw Hl].
  rewrite Hw, Hl. unfold pairs_total at 1 2 3 4. rewrite !map_fold_empty.
  set (ps := map profit trades).
  pose proof (List.filter_length is_wins ps) as Hp.
  assert (Hlen : length ps = length trades) by apply length_map.
  pose proof (win_loss_zero_partition ps) as Hz.
  unfold not_wins. split; [lia|].
  intros s Hs. destruct trades as [|t ts]; [discriminate Hs|].
  injection Hs as <-. fold ps. unfold stats_of.
  cbn [win_count total_trades loss_count]. lia.
Qed.

(** ** Heat maps: no parsable trade is dropped *)

Lemma strptime_valid (s : string) (dt : datetime) :
  strptime s = Ok dt -> valid dt = true.
Proof.
  unfold strptime. intros H.
  repeat match type of H with
         | context [match ?x with _ => _ end] =>
           lazymatch x with
           | valid _ => fail
           | _ => destruct x; try discriminate H
           end
         end.
  destruct (valid _) eqn:E; [|discriminate H].
  injection H as <-. exact E.
Qed.

Lemma strptime_ranges (s : string) (dt : datetime) :
  strptime s = Ok dt ->
  (1 <= year dt /\ 1 <= month dt <= 12
   /\ 1 <= day dt <= days_in_month (year dt) (month dt)
   /\ hour dt <= 23 /\ minute dt <= 59 /\ second dt <= 59)%nat.
Proof.
  intros H. apply strptime_valid in H. unfold valid in H.
  repeat (apply andb_true_iff in H as [H ?]).
  repeat match goal with
         | E : (_ <=? _)%nat = true |- _ => apply Nat.leb_le in E
         end.
  lia.
Qed.

Lemma strptime_empty : strptime EmptyString = Raise ValueError.
Proof. reflexivity. Qed.

Lemma hour_names_str (h : nat) : (h <= 23)%nat -> In (str h) hour_names.
Proof.
  intros H. change hour_names with (map str (seq 0 24)).
  apply in_map, in_seq. lia.
Qed.

Lemma weekday_name (dt : datetime) :
  exists d, nth_error day_names (weekday dt) = Some d /\ In d day_names.
Proof.
  assert (H : (weekday dt < length day_names)%nat).
  { unfold weekday. change (length day_names) with 7%nat.
    apply Nat.mod_upper_bound. lia. }
  apply nth_error_Some in H.
  destruct (nth_error day_names (weekday dt)) as [d|] eqn:E; [|congruence].
  exists d. split; [reflexivity|]. eapply nth_error_In, E.
Qed.

Lemma zero_table_slot (names : list string) (k : string) :
  In k names ->
  (list_to_map (map (fun d => (d, 0)) names) : gmap string Q) !! k = Some 0.
Proof.
  intros H.
  destruct ((list_to_map (map (fun d => (d, 0)) names) : gmap string Q) !! k)
    as [v|] eqn:E.
  - rewrite (zero_table_lookup _ _ _ E). reflexivity.
  - apply not_elem_of_list_to_map in E. exfalso. apply E.
    rewrite map_map. simpl. rewrite map_id. apply list_elem_of_In, H.
Qed.

Lemma hours_init_slot (k : string) : In k hour_names -> hours_init !! k = Some 0.
Proof.
  intros H. unfold hours_init. rewrite <- (map_map str (fun d => (d, 0))).
  apply zero_table_slot. exact H.
Qed.

(** X7.  In the response every hour key "0".."23" holds the running
    sum, rounded to two decimals after every trade, of the profits of the
    trades whose [open_time] parses to that hour, and every weekday key
    that of the trades opened on that weekday.  A trade whose [open_time]
    parses always falls on one of the 24 hour keys and one of the 7
    weekday keys, so the lookups inside the [try] never fail and only
    unparsable or missing timestamps are left out. *)
Theorem heat_map_slots (trades : list Trade) (snaps : list Snapshot) :
  exists r,
    assemble trades snaps = Ok r
    /\ (forall k, In k hour_names ->
          hours r !! k = Some (rounded_sum 0 (contributions hour_key k trades)))
    /\ (forall k, In k day_names ->
          days r !! k = Some (rounded_sum 0 (contributions day_key k trades)))
    /\ (forall t o dt,
          open_time t = Some o -> strptime (slice_to 19 o) = Ok dt ->
          hour_key t = Some (str (hour dt)) /\ In (str (hour dt)) hour_names
          /\ exists d, day_key t = Some d /\ In d day_names
                       /\ nth_error day_names (weekday dt) = Some d).
Proof.
  unfold assemble. rewrite compute_stats_total.
  eexists. split; [reflexivity|]. cbn [hours days].
  split; [|split].
  - intros k Hk. rewrite hours_of_slot, slot_fold_lookup, (hours_init_slot k Hk).
    reflexivity.
  - intros k Hk. rewrite days_of_slot, slot_fold_lookup.
    unfold days_init. rewrite (zero_table_slot day_names k Hk). reflexivity.
  - intros t o dt Ho Hp.
    assert (Hne : nonempty o = true).
    { destruct o; [|reflexivity].
      change (slice_to 19 EmptyString) with EmptyString in Hp.
      rewrite strptime_empty in Hp. discriminate Hp. }
    destruct (strptime_ranges _ _ Hp) as (_ & _ & _ & Hh & _).
    unfold hour_key, day_key. rewrite Ho, Hne, Hp.
    split; [reflexivity|]. split; [apply hour_names_str, Hh|].
    destruct (weekday_name dt) as (d & Hd & Hin). exists d. auto.
Qed.

(** ** Monthly table *)

Lemma slice_to_slice_to (n m : nat) (c : string) :
  (n <= m)%nat -> slice_to n (slice_to m c) = slice_to n c.
Proof.
  unfold slice_to. revert m c. induction n as [|n IH]; intros m c H.
  - destruct (substring 0 m c), c; reflexivity.
  - destruct m as [|m]; [lia|]. destruct c as [|a c]; [reflexivity|].
    simpl. f_equal. apply IH. lia.
Qed.

(** X8.  The monthly table has a key exactly for the first 7 characters of
    the [close_time]s present, holding the running sum, rounded to two
    decimals after every trade, of the profits of the trades closed in that
    month; a trade with no [close_time] is in no month.  The month of a
    trade is the first 7 characters of its calendar day, so a trade is in
    the calendar exactly when it is in the monthly table. *)
Theorem monthly_table_entries (trades : list Trade) (snaps : list Snapshot) :
  exists r,
    assemble trades snaps = Ok r
    /\ (forall k,
          monthly r !! k
          = match contributions month_key k trades with
            | [] => None
            | ps => Some (rounded_sum 0 ps)
            end)
    /\ (forall t, month_key t = option_map (slice_to 7) (cal_key t))
    /\ (forall t, close_time t = None \/ close_time t = Some EmptyString ->
                  month_key t = None).
Proof.
  unfold assemble. rewrite compute_stats_total.
  eexists. split; [reflexivity|]. cbn [monthly].
  split; [|split].
  - intros k. rewrite monthly_of_bucket, bucket_fold_lookup, lookup_empty.
    reflexivity.
  - intros t. unfold month_key, cal_key.
    destruct (close_time t) as [c|]; [|reflexivity].
    destruct (nonempty c); [|reflexivity].
    simpl. rewrite slice_to_slice_to by lia. reflexivity.
  - intros t [H|H]; unfold month_key; rewrite H; reflexivity.
Qed.

(** * Accounts, sessions and the sync endpoint *)

(** ** [strip] *)

Lemma lstrip_head (s : string) (c : ascii) (r : string) :
  lstrip s = String c r -> space c = false.
Proof.
  induction s as [|a s IH]; simpl; [discriminate|].
  destruct (space a) eqn:E; [exact IH|]. intros H. injection H as <- _. exact E.
Qed.

Lemma rstrip_head (s : string) (c : ascii) (r : string) :
  rstrip s = String c r -> exists s', s = String c s'.
Proof.
  destruct s as [|a s]; simpl; [discriminate|].
  destruct (rstrip s); [destruct (space a); [discriminate|]|];
    intros H; injection H as <- _; eauto.
Qed.

Lemma rstrip_idem (s : string) : rstrip (rstrip s) = rstrip s.
Proof.
  induction s as [|a s IH]; [reflexivity|]. simpl.
  destruct (rstrip s) as [|d r] eqn:E.
  - destruct (space a) eqn:Ea; [reflexivity|]. simpl. rewrite Ea. reflexivity.
  - change (rstrip (String a (String d r)))
      with (match rstrip (String d r) with
            | EmptyString => if space a then EmptyString else String a EmptyString
            | r' => String a r'
            end).
    rewrite IH. reflexivity.
Qed.

Lemma lstrip_nonspace (c : ascii) (r : string) :
  space c = false -> lstrip (String c r) = String c r.
Proof. intros H. simpl. rewrite H. reflexivity. Qed.

Lemma strip_idem (s : string) : strip (strip s) = strip s.
Proof.
  unfold strip. destruct (rstrip (lstrip s)) as [|c r] eqn:E; [reflexivity|].
  destruct (rstrip_head _ _ _ E) as [s' Hs'].
  rewrite (lstrip_nonspace c r (lstrip_head _ _ _ Hs')).
  rewrite <- E. apply rstrip_idem.
Qed.

Example strip_sample :
  strip "  42 1	 " = "42 1"%string /\ strip "   " = EmptyString.
Proof. split; reflexivity. Qed.

(** ** Accounts *)

Lemma find_none_existsb {A : Type} (f : A -> bool) (l : list A) :
  List.find f l = None <-> existsb f l = false.
Proof.
  induction l as [|a l IH]; simpl; [tauto|].
  destruct (f a); simpl; [split; discriminate | exact IH].
Qed.

Lemma find_app_fresh {A : Type} (f : A -> bool) (l : list A) (a : A) :
  List.find f l = None -> f a = true -> List.find f (l ++ [a]) = Some a.
Proof.
  intros Hn Ha. induction l as [|b l IH]; simpl in *.
  - rewrite Ha. reflexivity.
  - destruct (f b); [discriminate|]. apply IH, Hn.
Qed.

Lemma find_some_in {A : Type} (f : A -> bool) (l : list A) (a : A) :
  List.find f l = Some a -> In a l /\ f a = true.
Proof. apply find_some. Qed.

(** X9.  Registering through the form with an account number that is
    free and with both fields non-blank succeeds, and logging in afterwards
    with the same two inputs opens a session for the account just created,
    under the stripped account number. *)
Theorem register_then_login
    (sha256_hex : string -> string) (db : Db) (sess : option Session)
    (f_number f_password f_broker f_currency : option string) :
  let number := strip (default EmptyString f_number) in
  nonempty number = true ->
  nonempty (strip (default EmptyString f_password)) = true ->
  get_account db number = None ->
  exists db',
    register_post sha256_hex db f_number f_password f_broker f_currency
    = (RedirectLogin, db')
    /\ db_trades db' = db_trades db
    /\ db_snapshots db' = db_snapshots db
    /\ exists s,
         login_post sha256_hex db' sess f_number f_password
         = (RedirectDashboard, Some s)
         /\ sess_account_number s = number
         /\ sess_account_id s = next_id (map acc_id (db_accounts db))
         /\ sess_broker s
            = or_default (Some (strip (default "MT5"%string f_broker))) "MT5".
Proof.
  intros number Hn Hp Hfree.
  unfold register_post. fold number. rewrite Hn, Hp. cbn [negb orb].
  unfold insert_account.
  unfold get_account in Hfree. apply find_none_existsb in Hfree as Hex.
  rewrite Hex. eexists. split; [reflexivity|]. cbn [db_trades db_snapshots].
  split; [reflexivity|]. split; [reflexivity|].
  unfold login_post. fold number. unfold get_account. cbn [db_accounts].
  rewrite (find_app_fresh _ _ _ Hfree) by (cbn [account_number]; apply String.eqb_refl).
  cbn [password_hash]. rewrite String.eqb_refl.
  eexists. split; [reflexivity|]. repeat split.
Qed.

(** The statement above for the inputs " 1001 " and "secret" on an empty
    store. *)
Lemma register_then_login_witness :
  let db := {| db_accounts := []; db_trades := []; db_snapshots := [] |} in
  exists db',
    register_post (fun s => s) db (Some " 1001 "%string) (Some "secret"%string)
      None None = (RedirectLogin, db')
    /\ db_trades db' = db_trades db
    /\ db_snapshots db' = db_snapshots db
    /\ exists s,
         login_post (fun s => s) db' None (Some " 1001 "%string) (Some "secret"%string)
         = (RedirectDashboard, Some s)
         /\ sess_account_number s = "1001"%string
         /\ sess_account_id s = 1%Z
         /\ sess_broker s = "MT5"%string.
Proof.
  exact (register_then_login (fun s => s)
           {| db_accounts := []; db_trades := []; db_snapshots := [] |} None
           (Some " 1001 "%string) (Some "secret"%string) None None
           eq_refl eq_refl eq_refl).
Defined.

(** X10.  [login] opens a session only for an account of the store whose
    number is the stripped form field and whose stored hash is the hash of
    the stripped password field; in every other case the session is left
    as it was.  The number of the account logged into is therefore always
    free of surrounding blanks. *)
Theorem login_opens_sessions_for_matching_accounts_only
    (sha256_hex : string -> string) (db : Db) (sess : option Session)
    (f_number f_password : option string) :
  let number := strip (default EmptyString f_number) in
  let pwd := strip (default EmptyString f_password) in
  let '(page, sess') := login_post sha256_hex db sess f_number f_password in
  (page = RedirectDashboard
   /\ exists acc,
        In acc (db_accounts db)
        /\ account_number acc = number
        /\ password_hash acc = sha256_hex pwd
        /\ strip (account_number acc) = account_number acc
        /\ sess' = Some {| sess_account_id := acc_id acc;
                           sess_account_number := account_number acc;
                           sess_broker := or_default (broker acc) "MT5" |})
  \/ (page = LoginPage (Some "Invalid account number or password."%string)
      /\ sess' = sess
      /\ match get_account db number with
         | Some acc => password_hash acc <> sha256_hex pwd
         | None => ~ In number (map account_number (db_accounts db))
         end).
Proof.
  intros number pwd. unfold login_post. fold number. fold pwd.
  destruct (get_account db number) as [acc|] eqn:E.
  - unfold get_account in E. apply find_some_in in E as [Hin Heq].
    apply String.eqb_eq in Heq. unfold hash_password.
    destruct (String.eqb (password_hash acc) (sha256_hex pwd)) eqn:Eh.
    + left. split; [reflexivity|]. exists acc.
      apply String.eqb_eq in Eh. repeat split; try assumption.
      rewrite Heq. apply strip_idem.
    + right. apply String.eqb_neq in Eh. repeat split. exact Eh.
  - right. repeat split.
    intros Hin. apply in_map_iff in Hin as (a & Ha & Hin).
    unfold get_account in E. apply find_none_existsb in E.
    assert (Ht : existsb (fun a => String.eqb (account_number a) number) (db_accounts db) = true).
    { apply existsb_exists. exists a. split; [exact Hin|]. apply String.eqb_eq, Ha. }
    congruence.
Qed.

Lemma max_fold_ge (ids : list Z) (a : Z) :
  (a <= fold_left Z.max ids a)%Z
  /\ forall i, In i ids -> (i <= fold_left Z.max ids a)%Z.
Proof.
  revert a. induction ids as [|x ids IH]; intros a; simpl.
  - split; [lia | intros i []].
  - destruct (IH (Z.max a x)) as [H1 H2]. split; [lia|].
    intros i [<-|Hi]; [lia | apply H2, Hi].
Qed.

Lemma next_id_fresh (ids : list Z) : ~ In (next_id ids) ids /\ (1 <= next_id ids)%Z.
Proof.
  unfold next_id. destruct (max_fold_ge ids 0) as [H0 H]. split; [|lia].
  intros Hin. specialize (H _ Hin). lia.
Qed.

Lemma insert_account_spec (db db' : Db) (number hash : string) (brk cur : option string) :
  insert_account db number hash brk cur = Some db' ->
  ~ In number (map account_number (db_accounts db))
  /\ db_accounts db'
     = db_accounts db
       ++ [{| acc_id := next_id (map acc_id (db_accounts db));
              account_number := number; password_hash := hash;
              broker := brk; currency := cur |}]
  /\ db_trades db' = db_trades db /\ db_snapshots db' = db_snapshots db.
Proof.
  unfold insert_account.
  destruct (existsb _ (db_accounts db)) eqn:E; [discriminate|].
  intros H. injection H as <-. cbn. repeat split.
  intros Hin. apply in_map_iff in Hin as (a & Ha & Hin).
  assert (Ht : existsb (fun a => String.eqb (account_number a) number) (db_accounts db) = true).
  { apply existsb_exists. exists a. split; [exact Hin|]. apply String.eqb_eq, Ha. }
  congruence.
Qed.

Lemma insert_account_taken (db : Db) (number hash : string) (brk cur : option string) :
  insert_account db number hash brk cur = None <->
  In number (map account_number (db_accounts db)).
Proof.
  unfold insert_account. split.
  - destruct (existsb _ (db_accounts db)) eqn:E; [|discriminate]. intros _.
    apply existsb_exists in E as (a & Hin & Ha). apply String.eqb_eq in Ha.
    apply in_map_iff. eauto.
  - intros Hin. apply in_map_iff in Hin as (a & Ha & Hin).
    assert (Ht : existsb (fun a => String.eqb (account_number a) number) (db_accounts db) = true).
    { apply existsb_exists. exists a. split; [exact Hin|]. apply String.eqb_eq, Ha. }
    rewrite Ht. reflexivity.
Qed.

Lemma insert_account_keeps_unique (db : Db) (number hash : string) (brk cur : option string) :
  NoDup (map account_number (db_accounts db)) ->
  NoDup (map acc_id (db_accounts db)) ->
  accounts_kept_unique db
    (default db (insert_account db number hash brk cur)).
Proof.
  intros Hn Hi. destruct (insert_account db number hash brk cur) as [db'|] eqn:E; simpl.
  - apply insert_account_spec in E as (Hfree & Hacc & Ht & Hs).
    unfold accounts_kept_unique. rewrite Hacc, !map_app. cbn [map acc_id account_number].
    repeat split; eauto.
    + apply NoDup_app. repeat split; [exact Hn | | apply NoDup_singleton].
      intros x Hx Hx'. apply list_elem_of_In in Hx, Hx'.
      destruct Hx' as [<-|[]]. contradiction.
    + apply NoDup_app. repeat split; [exact Hi | | apply NoDup_singleton].
      intros x Hx Hx'. apply list_elem_of_In in Hx, Hx'.
      destruct Hx' as [<-|[]].
      exact (proj1 (next_id_fresh _) Hx).
  - unfold accounts_kept_unique. repeat split; try assumption.
    exists []. rewrite app_nil_r. reflexivity.
Qed.

(** X11.  In a store whose account numbers and account ids are pairwise
    distinct they stay so after any registration, through the form or
    through the API; existing accounts, trades and snapshots are left as
    they are; and a registration under a number already taken changes
    nothing and is reported as such. *)
Theorem registrations_keep_accounts_unique
    (API_KEY : string) (sha256_hex : string -> string) (db : Db)
    (key f_number f_password f_broker f_currency : option string) :
  NoDup (map account_number (db_accounts db)) ->
  NoDup (map acc_id (db_accounts db)) ->
  accounts_kept_unique db
    (snd (register_post sha256_hex db f_number f_password f_broker f_currency))
  /\ accounts_kept_unique db
       (snd (api_register API_KEY sha256_hex db key f_number f_password f_broker))
  /\ (In (strip (default EmptyString f_number)) (map account_number (db_accounts db)) ->
      nonempty (strip (default EmptyString f_number)) = true ->
      nonempty (strip (default EmptyString f_password)) = true ->
      register_post sha256_hex db f_number f_password f_broker f_currency
      = (RegisterPage (Some "Account number already registered."%string), db))
  /\ (In (default EmptyString f_number) (map account_number (db_accounts db)) ->
      default EmptyString key = API_KEY ->
      api_register API_KEY sha256_hex db key f_number f_password f_broker
      = (ApiAlreadyExists, db)).
Proof.
  intros Hn Hi.
  assert (Hsame : accounts_kept_unique db db).
  { unfold accounts_kept_unique. repeat split; try assumption.
    exists []. rewrite app_nil_r. reflexivity. }
  split; [|split; [|split]].
  - unfold register_post.
    destruct (negb _ || negb _); [exact Hsame|].
    pose proof (insert_account_keeps_unique db
                  (strip (default EmptyString f_number))
                  (hash_password sha256_hex (strip (default EmptyString f_password)))
                  (Some (strip (default "MT5"%string f_broker)))
                  (Some (strip (default "USD"%string f_currency))) Hn Hi) as H.
    destruct (insert_account _ _ _ _ _); exact H.
  - unfold api_register.
    destruct (negb _); [exact Hsame|].
    pose proof (insert_account_keeps_unique db
                  (default EmptyString f_number)
                  (hash_password sha256_hex (default EmptyString f_password))
                  (Some (default "MT5"%string f_broker))
                  (Some "USD"%string) Hn Hi) as H.
    destruct (insert_account _ _ _ _ _); exact H.
  - intros Hin Hne Hp. unfold register_post. rewrite Hp, Hne. cbn [negb orb].
    rewrite (proj2 (insert_account_taken _ _ _ _ _) Hin). reflexivity.
  - intros Hin Hk. unfold api_register. rewrite Hk, String.eqb_refl. cbn [negb].
    rewrite (proj2 (insert_account_taken _ _ _ _ _) Hin). reflexivity.
Qed.

(** The statement above on a store with the one account "1001", for a
    second registration under that number. *)
Lemma registrations_keep_accounts_unique_witness :
  let db := {| db_accounts := [{| acc_id := 1; account_number := "1001";
                                  password_hash := "h"; broker := None;
                                  currency := None |}];
               db_trades := []; db_snapshots := [] |} in
  accounts_kept_unique db
    (snd (register_post (fun s => s) db (Some "1001"%string) (Some "pw"%string) None None))
  /\ accounts_kept_unique db
       (snd (api_register "k" (fun s => s) db (Some "k"%string) (Some "1001"%string)
               (Some "pw"%string) None))
  /\ (In "1001"%string ["1001"%string] -> true = true -> true = true ->
      register_post (fun s => s) db (Some "1001"%string) (Some "pw"%string) None None
      = (RegisterPage (Some "Account number already registered."%string), db))
  /\ (In "1001"%string ["1001"%string] -> "k"%string = "k"%string ->
      api_register "k" (fun s => s) db (Some "k"%string) (Some "1001"%string)
        (Some "pw"%string) None
      = (ApiAlreadyExists, db)).
Proof.
  refine (registrations_keep_accounts_unique "k" (fun s => s)
            {| db_accounts := [{| acc_id := 1; account_number := "1001";
                                  password_hash := "h"; broker := None;
                                  currency := None |}];
               db_trades := []; db_snapshots := [] |}
            (Some "k"%string) (Some "1001"%string) (Some "pw"%string) None None _ _).
  - apply NoDup_singleton.
  - apply NoDup_singleton.
Defined.

(** X12.  The API registers an account number as it is sent, while [login]
    looks up the stripped form field: an account registered through the
    API under a number with blanks around it is stored, and no login
    request opens a session for it. *)
Theorem api_registered_padded_number_cannot_log_in
    (API_KEY : string) (sha256_hex : string -> string) (db : Db)
    (key j_password j_broker : option string) (number : string) :
  default EmptyString key = API_KEY ->
  strip number <> number ->
  ~ In number (map account_number (db_accounts db)) ->
  exists db',
    api_register API_KEY sha256_hex db key (Some number) j_password j_broker
    = (ApiRegistered, db')
    /\ In number (map account_number (db_accounts db'))
    /\ forall sess f_number f_password s,
         login_post sha256_hex db' sess f_number f_password
         = (RedirectDashboard, Some s) ->
         sess_account_number s <> number.
Proof.
  intros Hk Hpad Hfree. unfold api_register.
  rewrite Hk, String.eqb_refl. cbn [negb].
  change (default EmptyString (Some number)) with number.
  destruct (insert_account db number
              (hash_password sha256_hex (default EmptyString j_password))
              (Some (default "MT5"%string j_broker))
              (Some "USD"%string)) as [db'|] eqn:E.
  2:{ apply insert_account_taken in E. contradiction. }
  exists db'. split; [reflexivity|].
  apply insert_account_spec in E as (_ & Hacc & _ & _).
  split.
  { rewrite Hacc, map_app. apply in_or_app. right. left. reflexivity. }
  intros sess f_number f_password s Hlogin.
  pose proof (login_opens_sessions_for_matching_accounts_only
                sha256_hex db' sess f_number f_password) as H.
  cbv zeta in H. rewrite Hlogin in H.
  destruct H as [(_ & acc & _ & _ & _ & Hstrip & Hs)|(Hpage & _)]; [|discriminate Hpage].
  injection Hs as ->. cbn [sess_account_number]. intros Heq.
  rewrite Heq in Hstrip. contradiction.
Qed.

(** The statement above for the number " 7" on an empty store. *)
Lemma api_registered_padded_number_cannot_log_in_witness :
  exists db',
    api_register "k" (fun s => s)
      {| db_accounts := []; db_trades := []; db_snapshots := [] |}
      (Some "k"%string) (Some " 7"%string) (Some "pw"%string) None
    = (ApiRegistered, db')
    /\ In " 7"%string (map account_number (db_accounts db'))
    /\ forall sess f_number f_password s,
         login_post (fun s => s) db' sess f_number f_password
         = (RedirectDashboard, Some s) ->
         sess_account_number s <> " 7"%string.
Proof.
  refine (api_registered_padded_number_cannot_log_in "k" (fun s => s)
            {| db_accounts := []; db_trades := []; db_snapshots := [] |}
            (Some "k"%string) (Some "pw"%string) None " 7" eq_refl _ _).
  - discriminate.
  - simpl. tauto.
Defined.

(** ** Trade durations *)

(** X13.  The stored [duration_minutes] is 0 when either timestamp is
    empty or does not parse.  When both parse it is the number of whole
    minutes between them, counted towards 0: for a close at or after the
    open the minutes elapsed rounded down, and for a close before the open
    the negated minutes rounded down, so a close up to 59 seconds before
    the open also gives 0. *)
Theorem duration_is_minutes_towards_zero :
  (forall o c dt1 dt2,
     strptime (slice_to 19 o) = Ok dt1 ->
     strptime (slice_to 19 c) = Ok dt2 ->
     let elapsed := (seconds_of dt2 - seconds_of dt1)%Z in
     let d := duration_of o c in
     d = minutes_between dt1 dt2
     /\ ((0 <= elapsed)%Z -> (0 <= d /\ 60 * d <= elapsed < 60 * d + 60)%Z)
     /\ ((elapsed <= 0)%Z -> (d <= 0 /\ 60 * d - 60 < elapsed <= 60 * d)%Z))
  /\ (forall o c e,
        strptime (slice_to 19 o) = Raise e \/ strptime (slice_to 19 c) = Raise e ->
        duration_of o c = 0%Z)
  /\ (forall o c, o = EmptyString \/ c = EmptyString -> duration_of o c = 0%Z)
  /\ (forall t, duration_minutes (trade_of_payload t)
                = duration_of (default EmptyString (in_open_time t))
                              (default EmptyString (in_close_time t))).
Proof.
  split; [|split; [|split]].
  - intros o c dt1 dt2 H1 H2 elapsed d.
    assert (Ho : nonempty o = true).
    { destruct o; [|reflexivity].
      change (slice_to 19 EmptyString) with EmptyString in H1.
      rewrite strptime_empty in H1. discriminate H1. }
    assert (Hc : nonempty c = true).
    { destruct c; [|reflexivity].
      change (slice_to 19 EmptyString) with EmptyString in H2.
      rewrite strptime_empty in H2. discriminate H2. }
    assert (Hd : d = Z.quot elapsed 60).
    { unfold d, duration_of. rewrite Ho, Hc, H1, H2. reflexivity. }
    split; [exact Hd|]. rewrite Hd.
    pose proof (Z.quot_rem' elapsed 60) as Hqr.
    split; intros Hs.
    + pose proof (Z.rem_bound_pos elapsed 60 Hs ltac:(lia)) as Hr.
      pose proof (Z.quot_pos elapsed 60 Hs ltac:(lia)). lia.
    + assert (Hn : (0 <= - elapsed)%Z) by lia.
      pose proof (Z.quot_rem' (- elapsed) 60) as Hqr'.
      pose proof (Z.rem_bound_pos (- elapsed) 60 Hn ltac:(lia)) as Hr.
      pose proof (Z.quot_pos (- elapsed) 60 Hn ltac:(lia)) as Hq.
      rewrite Z.quot_opp_l in Hqr', Hq by lia. lia.
  - intros o c e [H|H]; unfold duration_of;
      destruct (nonempty o && nonempty c); try reflexivity; rewrite H.
    + reflexivity.
    + destruct (strptime (slice_to 19 o)); reflexivity.
  - intros o c [->| ->]; unfold duration_of; [reflexivity|].
    rewrite andb_false_r. reflexivity.
  - intros t. reflexivity.
Qed.

(** ** The sync endpoint *)

Example duration_samples :
  duration_of "2024-01-05 10:00:00" "2024-01-05 11:30:59" = 90%Z
  /\ duration_of "2024-01-05 23:59:00" "2024-01-06 00:01:00" = 2%Z
  /\ duration_of "2024-01-05 10:00:30" "2024-01-05 10:00:00" = 0%Z
  /\ duration_of "2024-01-05 10:01:30" "2024-01-05 10:00:00" = (-1)%Z
  /\ duration_of "2024-01-05T10:00:00" "2024-01-05 11:00:00" = 0%Z.
Proof. repeat split; vm_compute; reflexivity. Qed.

Lemma trade_keys_app (l1 l2 : list TradeRow) :
  trade_keys (l1 ++ l2) = trade_keys l1 ++ trade_keys l2.
Proof. unfold trade_keys. apply flat_map_app. Qed.

Lemma same_key_in (account_id k : Z) (rows : list TradeRow) :
  existsb (same_key account_id (Some k)) rows = true
  <-> In (account_id, k) (trade_keys rows).
Proof.
  unfold trade_keys. rewrite existsb_exists, in_flat_map. split.
  - intros (r & Hin & H). exists r. split; [exact Hin|].
    unfold same_key in H. destruct (ticket (tr_trade r)) as [k'|]; [|discriminate].
    apply andb_true_iff in H as [Ha Hk].
    apply Z.eqb_eq in Ha, Hk. subst. left. reflexivity.
  - intros (r & Hin & H). exists r. split; [exact Hin|].
    unfold same_key. destruct (ticket (tr_trade r)) as [k'|]; [|destruct H].
    destruct H as [H|[]]. injection H as -> ->. rewrite !Z.eqb_refl. reflexivity.
Qed.

Lemma same_key_null (account_id : Z) (rows : list TradeRow) :
  existsb (same_key account_id None) rows = false.
Proof. induction rows as [|r rows IH]; [reflexivity | exact IH]. Qed.

(** What one [INSERT OR IGNORE] does to the table. *)
Lemma insert_or_ignore_cases (rows : list TradeRow) (account_id : Z) (t : Trade) :
  (insert_or_ignore rows account_id t = rows
   /\ exists k, ticket t = Some k /\ In (account_id, k) (trade_keys rows))
  \/ (insert_or_ignore rows account_id t
      = rows ++ [{| tr_id := next_id (map tr_id rows);
                    tr_account_id := account_id; tr_trade := t |}]
      /\ forall k, ticket t = Some k -> ~ In (account_id, k) (trade_keys rows)).
Proof.
  unfold insert_or_ignore. destruct (ticket t) as [k|] eqn:Et.
  - destruct (existsb _ rows) eqn:E.
    + left. split; [reflexivity|]. exists k. split; [reflexivity|].
      apply same_key_in, E.
    + right. split; [reflexivity|]. intros k' Hk. injection Hk as <-.
      intros Hin. apply same_key_in in Hin. congruence.
  - rewrite same_key_null. right. split; [reflexivity|]. intros k Hk. discriminate Hk.
Qed.

(** The loop skips the elements on which its body raises, and runs
    [store_step] on the others. *)
Lemma sync_step_stored (account_id : Z) (es : list TradeElem) (st : list TradeRow * nat) :
  fold_left (sync_step account_id) es st
  = fold_left (store_step account_id) (stored_trades es) st.
Proof.
  revert st. induction es as [|e es IH]; intros st; [reflexivity|].
  unfold stored_trades. cbn [flat_map fold_left]. rewrite fold_left_app.
  fold (stored_trades es). rewrite IH. f_equal.
  destruct e as [t|]; [|reflexivity].
  unfold sync_step, fields_of, execute_insert. cbn [mbind exc_bind].
  destruct (binds t); reflexivity.
Qed.



Lemma sync_fold_count (account_id : Z) (ts : list TradeIn) (rows : list TradeRow) (n : nat) :
  snd (fold_left (store_step account_id) ts (rows, n)) = (n + length ts)%nat.
Proof.
  revert rows n. induction ts as [|t ts IH]; intros rows n; simpl; [lia|].
  unfold store_step at 2. cbn [fst snd]. rewrite IH. lia.
Qed.


Lemma sync_fold_unique (account_id : Z) (ts : list TradeIn) (rows : list TradeRow) (n : nat) :
  NoDup (trade_keys rows) -> NoDup (map tr_id rows) ->
  let rows' := fst (fold_left (store_step account_id) ts (rows, n)) in
  NoDup (trade_keys rows') /\ NoDup (map tr_id rows').
Proof.
  revert rows n. induction ts as [|t ts IH]; intros rows n Hk Hi; [split; assumption|].
  cbn zeta. simpl fold_left. unfold store_step at 2. cbn [fst snd].
  apply IH.
  - destruct (insert_or_ignore_cases rows account_id (trade_of_payload t))
      as [[E _]|[E Hfresh]]; rewrite E; [exact Hk|].
    rewrite trade_keys_app. unfold trade_keys at 2. cbn [flat_map tr_trade tr_account_id].
    rewrite app_nil_r.
    destruct (ticket (trade_of_payload t)) as [k|] eqn:Et.
    + apply NoDup_app. repeat split; [exact Hk | | apply NoDup_singleton].
      intros x Hx Hx'. apply list_elem_of_In in Hx, Hx'.
      destruct Hx' as [<-|[]]. exact (Hfresh k eq_refl Hx).
    + rewrite app_nil_r. exact Hk.
  - destruct (insert_or_ignore_cases rows account_id (trade_of_payload t))
      as [[E _]|[E _]]; rewrite E; [exact Hi|].
    rewrite map_app. cbn [map tr_id].
    apply NoDup_app. repeat split; [exact Hi | | apply NoDup_singleton].
    intros x Hx Hx'. apply list_elem_of_In in Hx, Hx'.
    destruct Hx' as [<-|[]]. exact (proj1 (next_id_fresh _) Hx).
Qed.

Lemma bind_num_default (x : option JNum) :
  bind_num (default (JInt 0) x)
  = if binds_num x then Ok (num_or_zero x) else Raise OverflowError.
Proof. destruct x as [[z|q]|]; reflexivity. Qed.

(** The four ways [sync_trades] returns. *)
Lemma sync_trades_cases (API_KEY : string) (db : Db) (key : option string)
    (payload : SyncPayload) (now : string) :
  let ts := stored_trades (default [] (p_trades payload)) in
  let acc_num := default EmptyString (p_account_number payload) in
  let r := sync_trades API_KEY db key payload now in
  (default EmptyString key <> API_KEY /\ r = (SyncInvalidKey, db))
  \/ (default EmptyString key = API_KEY /\ get_account db acc_num = None
      /\ r = (SyncAccountNotFound, db))
  \/ (default EmptyString key = API_KEY
      /\ (exists acc, get_account db acc_num = Some acc)
      /\ binds_num (p_balance payload) && binds_num (p_equity payload) = false
      /\ r = (SyncServerError, db))
  \/ (exists acc,
        default EmptyString key = API_KEY
        /\ get_account db acc_num = Some acc
        /\ binds_num (p_balance payload) && binds_num (p_equity payload) = true
        /\ r = (SyncOk (length ts),
                {| db_accounts := db_accounts db;
                   db_trades :=
                     fst (fold_left (store_step (acc_id acc)) ts (db_trades db, 0%nat));
                   db_snapshots :=
                     db_snapshots db
                     ++ [{| sr_id := next_id (map sr_id (db_snapshots db));
                            sr_account_id := acc_id acc;
                            sr_snapshot :=
                              {| balance := num_or_zero (p_balance payload);
                                 equity := num_or_zero (p_equity payload);
                                 snapshot_time := now |} |}] |})).
Proof.
  intros ts acc_num r. subst r. unfold sync_trades. fold acc_num.
  destruct (String.eqb (default EmptyString key) API_KEY) eqn:Ek; cbn [negb].
  2:{ left. apply String.eqb_neq in Ek. split; [exact Ek | reflexivity]. }
  apply String.eqb_eq in Ek. right.
  destruct (get_account db acc_num) as [acc|] eqn:Ea.
  2:{ left. repeat split; assumption. }
  right. rewrite sync_step_stored. fold ts.
  unfold insert_snapshot. rewrite !bind_num_default.
  pose proof (sync_fold_count (acc_id acc) ts (db_trades db) 0) as Hc.
  destruct (binds_num (p_balance payload)); cbn [mbind exc_bind andb];
    [destruct (binds_num (p_equity payload)); cbn [mbind exc_bind]|].
  - right. exists acc. split; [exact Ek|]. split; [reflexivity|].
    split; [reflexivity|].
    destruct (fold_left (store_step (acc_id acc)) ts (db_trades db, 0%nat)) as [rows n].
    cbn [fst snd] in *. subst n. reflexivity.
  - left. split; [exact Ek|]. split; [exists acc; reflexivity|].
    split; [reflexivity|].
    destruct (fold_left (store_step (acc_id acc)) ts (db_trades db, 0%nat)); reflexivity.
  - left. split; [exact Ek|]. split; [exists acc; reflexivity|].
    split; [reflexivity|].
    destruct (fold_left (store_step (acc_id acc)) ts (db_trades db, 0%nat)); reflexivity.
Qed.


(** X15.  If no two rows of [trades] share an account and a ticket and no
    two share an id, the same holds after any sync request. *)
Theorem sync_keeps_tickets_unique (API_KEY : string) (db : Db) (key : option string)
    (payload : SyncPayload) (now : string) :
  NoDup (trade_keys (db_trades db)) ->
  NoDup (map tr_id (db_trades db)) ->
  let db' := snd (sync_trades API_KEY db key payload now) in
  NoDup (trade_keys (db_trades db')) /\ NoDup (map tr_id (db_trades db')).
Proof.
  intros Hk Hi. cbn zeta.
  destruct (sync_trades_cases API_KEY db key payload now)
    as [(_ & ->)|[(_ & _ & ->)|[(_ & _ & _ & ->)|(acc & _ & _ & _ & ->)]]];
    cbn [snd db_trades]; try (split; assumption).
  apply sync_fold_unique; assumption.
Qed.

Lemma insert_or_ignore_keys (rows : list TradeRow) (account_id : Z) (t : Trade) :
  (forall key, In key (trade_keys rows) ->
               In key (trade_keys (insert_or_ignore rows account_id t)))
  /\ (forall k, ticket t = Some k ->
                In (account_id, k) (trade_keys (insert_or_ignore rows account_id t))).
Proof.
  destruct (insert_or_ignore_cases rows account_id t) as [[E (k & Hk & Hin)]|[E _]];
    rewrite E.
  - split; [tauto|]. intros k' Hk'. congruence.
  - rewrite trade_keys_app. split.
    + intros key H. apply in_or_app. left. exact H.
    + intros k Hk. apply in_or_app. right.
      unfold trade_keys. cbn [flat_map tr_trade tr_account_id]. rewrite Hk.
      left. reflexivity.
Qed.

Lemma sync_fold_keys (account_id : Z) (ts : list TradeIn) (rows : list TradeRow) (n : nat) :
  let rows' := fst (fold_left (store_step account_id) ts (rows, n)) in
  (forall key, In key (trade_keys rows) -> In key (trade_keys rows'))
  /\ (forall t k, In t ts -> in_ticket t = Some k -> In (account_id, k) (trade_keys rows')).
Proof.
  revert rows n. induction ts as [|t ts IH]; intros rows n; cbn zeta.
  - split; [tauto | intros t k []].
  - simpl fold_left. unfold store_step at 2. cbn [fst snd].
    destruct (IH (insert_or_ignore rows account_id (trade_of_payload t)) (S n))
      as [Hmono Hall].
    destruct (insert_or_ignore_keys rows account_id (trade_of_payload t)) as [H1 H2].
    split.
    + intros key H. apply Hmono, H1, H.
    + intros t' k [<-|Hin] Hk.
      * apply Hmono, H2. exact Hk.
      * eapply Hall; eassumption.
Qed.

Lemma sync_fold_noop (account_id : Z) (ts : list TradeIn) (rows : list TradeRow) (n : nat) :
  (forall t, In t ts ->
     exists k, in_ticket t = Some k /\ In (account_id, k) (trade_keys rows)) ->
  fst (fold_left (store_step account_id) ts (rows, n)) = rows.
Proof.
  revert n. induction ts as [|t ts IH]; intros n H; [reflexivity|].
  simpl fold_left. unfold store_step at 2. cbn [fst snd].
  destruct (H t (or_introl eq_refl)) as (k & Hk & Hin).
  destruct (insert_or_ignore_cases rows account_id (trade_of_payload t))
    as [[E _]|[_ Hfresh]].
  - rewrite E. apply IH. intros t' Ht'. apply H. right. exact Ht'.
  - exfalso. exact (Hfresh k Hk Hin).
Qed.

Lemma sync_fold_all_new (account_id : Z) (ts : list TradeIn) (rows : list TradeRow) (n : nat) :
  (forall t, In t ts -> in_ticket t = None) ->
  length (fst (fold_left (store_step account_id) ts (rows, n)))
  = (length rows + length ts)%nat.
Proof.
  revert rows n. induction ts as [|t ts IH]; intros rows n H; [simpl; lia|].
  simpl fold_left. unfold store_step at 2. cbn [fst snd].
  rewrite IH by (intros t' Ht'; apply H; right; exact Ht').
  destruct (insert_or_ignore_cases rows account_id (trade_of_payload t))
    as [[_ (k & Hk & _)]|[E _]].
  - cbn in Hk. rewrite (H t (or_introl eq_refl)) in Hk. discriminate Hk.
  - rewrite E, length_app. simpl. lia.
Qed.

(** The invariant above on an empty table, for a payload that repeats a
    ticket. *)
Lemma sync_keeps_tickets_unique_witness :
  let db' := snd (sync_trades "k" sample_db (Some "k"%string)
                    (sample_payload [sample_trade_in (Some 7%Z) 5;
                                     sample_trade_in (Some 7%Z) 6]) "now") in
  NoDup (trade_keys (db_trades db')) /\ NoDup (map tr_id (db_trades db')).
Proof.
  refine (sync_keeps_tickets_unique "k" sample_db (Some "k"%string)
            (sample_payload [sample_trade_in (Some 7%Z) 5;
                             sample_trade_in (Some 7%Z) 6]) "now" _ _).
  - apply NoDup_nil_2.
  - apply NoDup_nil_2.
Defined.

(** X16.  Sending the same payload a second time, when every element of
    it that the loop counts has a ticket, stores no trade again: the
    [trades] table after the second sync is the one after the first, and
    the second response is the first one, so it still reports every
    counted element as inserted.  Each accepted sync adds its own equity
    snapshot; a pair of requests that is not accepted leaves the store as
    it was. *)
Theorem sync_twice_stores_trades_once (API_KEY : string) (db : Db)
    (key : option string) (payload : SyncPayload) (now now' : string) :
  let ts := stored_trades (default [] (p_trades payload)) in
  (forall t, In t ts -> in_ticket t <> None) ->
  let '(resp1, db1) := sync_trades API_KEY db key payload now in
  let '(resp2, db2) := sync_trades API_KEY db1 key payload now' in
  resp2 = resp1
  /\ db_trades db2 = db_trades db1
  /\ db_accounts db2 = db_accounts db
  /\ match resp1 with
     | SyncOk n =>
       n = length ts
       /\ length (db_snapshots db2) = (length (db_snapshots db) + 2)%nat
     | _ => db2 = db
     end.
Proof.
  intros ts Ht.
  destruct (sync_trades_cases API_KEY db key payload now)
    as [(Hk & ->)|[(Hk & Ha & ->)|[(Hk & (acc & Ha) & Hb & ->)|(acc & Hk & Ha & Hb & ->)]]].
  - destruct (sync_trades_cases API_KEY db key payload now')
      as [(_ & ->)|[(Hk' & _)|[(Hk' & _)|(acc' & Hk' & _)]]];
      [repeat split | contradiction..].
  - destruct (sync_trades_cases API_KEY db key payload now')
      as [(Hk' & _)|[(_ & _ & ->)|[(_ & (acc' & Ha') & _)|(acc' & _ & Ha' & _)]]];
      [contradiction | repeat split | congruence..].
  - destruct (sync_trades_cases API_KEY db key payload now')
      as [(Hk' & _)|[(_ & Ha' & _)|[(_ & _ & _ & ->)|(acc' & _ & _ & Hb' & _)]]];
      [contradiction | congruence | repeat split | congruence].
  - fold ts.
    set (rows1 := fst (fold_left (store_step (acc_id acc)) ts (db_trades db, 0%nat))).
    set (db1 := {| db_accounts := db_accounts db; db_trades := rows1;
                   db_snapshots := _ |}).
    assert (Ha1 : get_account db1 (default EmptyString (p_account_number payload)) = Some acc)
      by exact Ha.
    destruct (sync_trades_cases API_KEY db1 key payload now')
      as [(Hk' & _)|[(_ & Ha' & _)|[(_ & _ & Hb' & _)|(acc' & _ & Ha' & _ & ->)]]];
      [contradiction | congruence | congruence |].
    assert (acc' = acc) by congruence. subst acc'.
    fold ts. cbn [db_trades db_accounts db_snapshots db1].
    split; [reflexivity|]. split; [|split; [reflexivity|split; [reflexivity|]]].
    + apply sync_fold_noop. intros t Hin.
      destruct (in_ticket t) as [k|] eqn:Ek; [|destruct (Ht t Hin Ek)].
      exists k. split; [reflexivity|].
      apply (proj2 (sync_fold_keys (acc_id acc) ts (db_trades db) 0) t k Hin Ek).
    + rewrite !length_app. simpl. lia.
Qed.

(** The statement above for two tickets on [sample_db]. *)
Lemma sync_twice_stores_trades_once_witness :
  let payload := sample_payload [sample_trade_in (Some 7%Z) 5;
                                 sample_trade_in (Some 8%Z) 6] in
  let '(resp1, db1) := sync_trades "k" sample_db (Some "k"%string) payload "t1" in
  let '(resp2, db2) := sync_trades "k" db1 (Some "k"%string) payload "t2" in
  resp2 = resp1
  /\ db_trades db2 = db_trades db1
  /\ db_accounts db2 = db_accounts sample_db
  /\ match resp1 with
     | SyncOk n => n = 2%nat /\ length (db_snapshots db2) = 2%nat
     | _ => db2 = sample_db
     end.
Proof.
  refine (sync_twice_stores_trades_once "k" sample_db (Some "k"%string)
            (sample_payload [sample_trade_in (Some 7%Z) 5;
                             sample_trade_in (Some 8%Z) 6])
            "t1" "t2" _).
  intros t [<-|[<-|[]]]; discriminate.
Defined.

(** X17.  Trades sent without a ticket are never taken for duplicates:
    an accepted sync in which no counted element has a ticket adds one row
    per counted element, every time it is sent. *)
Theorem sync_without_tickets_always_inserts (API_KEY : string) (db : Db)
    (key : option string) (payload : SyncPayload) (now : string) (n : nat) :
  let ts := stored_trades (default [] (p_trades payload)) in
  (forall t, In t ts -> in_ticket t = None) ->
  fst (sync_trades API_KEY db key payload now) = SyncOk n ->
  n = length ts
  /\ length (db_trades (snd (sync_trades API_KEY db key payload now)))
     = (length (db_trades db) + n)%nat.
Proof.
  intros ts Ht.
  destruct (sync_trades_cases API_KEY db key payload now)
    as [(_ & ->)|[(_ & _ & ->)|[(_ & _ & _ & ->)|(acc & _ & _ & _ & ->)]]];
    cbn [fst snd]; try discriminate.
  intros [= <-]. fold ts. split; [reflexivity|].
  cbn [db_trades]. apply sync_fold_all_new, Ht.
Qed.

(** The statement above for the same ticketless trade sent twice in one
    payload. *)
Lemma sync_without_tickets_always_inserts_witness :
  2%nat = length (stored_trades [JObject (sample_trade_in None 5);
                                 JObject (sample_trade_in None 5)])
  /\ length (db_trades (snd (sync_trades "k" sample_db (Some "k"%string)
                               (sample_payload [sample_trade_in None 5;
                                                sample_trade_in None 5]) "now")))
     = 2%nat.
Proof.
  refine (sync_without_tickets_always_inserts "k" sample_db (Some "k"%string)
            (sample_payload [sample_trade_in None 5; sample_trade_in None 5])
            "now" 2 _ eq_refl).
  intros t [<-|[<-|[]]]; reflexivity.
Defined.

Lemma find_snoc {A : Type} (f : A -> bool) (l : list A) (a : A) :
  List.find f (l ++ [a])
  = match List.find f l with
    | Some x => Some x
    | None => if f a then Some a else None
    end.
Proof.
  induction l as [|b l IH]; simpl; [reflexivity|].
  destruct (f b); [reflexivity | exact IH].
Qed.

Lemma find_same_key_none (account_id k : Z) (rows : list TradeRow) :
  List.find (same_key account_id (Some k)) rows = None
  <-> ~ In (account_id, k) (trade_keys rows).
Proof.
  rewrite find_none_existsb, <- same_key_in.
  destruct (existsb _ rows); split; congruence.
Qed.

Lemma sync_fold_find (account_id k : Z) (ts : list TradeIn) (rows : list TradeRow) (n : nat) :
  option_map tr_trade
    (List.find (same_key account_id (Some k))
       (fst (fold_left (store_step account_id) ts (rows, n))))
  = match List.find (same_key account_id (Some k)) rows with
    | Some r => Some (tr_trade r)
    | None => option_map trade_of_payload (List.find (has_ticket k) ts)
    end.
Proof.
  revert rows n. induction ts as [|t ts IH]; intros rows n.
  - simpl. destruct (List.find _ rows); reflexivity.
  - simpl fold_left. unfold store_step at 2. cbn [fst snd]. rewrite IH.
    cbn [List.find]. unfold has_ticket at 2.
    change (in_ticket t) with (ticket (trade_of_payload t)).
    destruct (insert_or_ignore_cases rows account_id (trade_of_payload t))
      as [[E (k' & Hk' & Hin)]|[E Hfresh]]; rewrite E.
    + destruct (List.find (same_key account_id (Some k)) rows) as [r|] eqn:Ef;
        [reflexivity|].
      rewrite Hk'. destruct (k' =? k)%Z eqn:Ekk; [|reflexivity].
      apply Z.eqb_eq in Ekk. subst k'.
      apply find_same_key_none in Ef. contradiction.
    + rewrite find_snoc.
      destruct (List.find (same_key account_id (Some k)) rows) as [r|] eqn:Ef;
        [reflexivity|].
      unfold same_key at 1. cbn [tr_trade tr_account_id].
      destruct (ticket (trade_of_payload t)) as [k'|]; [|reflexivity].
      rewrite Z.eqb_refl. cbn [andb].
      destruct (k' =? k)%Z; reflexivity.
Qed.

(** X18.  The first write of a ticket wins.  After an accepted sync the
    row stored for the account under ticket [k] holds the values it held
    before when there was one, so a resent trade never updates a stored
    one; when there was none it holds the values of the first counted
    element of the payload with that ticket, and later ones with the same
    ticket are ignored. *)
Theorem sync_first_write_wins (API_KEY : string) (db : Db) (key : option string)
    (payload : SyncPayload) (now : string) (acc : Account) (k : Z) (n : nat) :
  get_account db (default EmptyString (p_account_number payload)) = Some acc ->
  fst (sync_trades API_KEY db key payload now) = SyncOk n ->
  let stored rows :=
    option_map tr_trade (List.find (same_key (acc_id acc) (Some k)) rows) in
  stored (db_trades (snd (sync_trades API_KEY db key payload now)))
  = match stored (db_trades db) with
    | Some old => Some old
    | None =>
      option_map trade_of_payload
        (List.find (has_ticket k) (stored_trades (default [] (p_trades payload))))
    end.
Proof.
  intros Ha. cbv zeta.
  destruct (sync_trades_cases API_KEY db key payload now)
    as [(_ & ->)|[(_ & _ & ->)|[(_ & _ & _ & ->)|(acc' & _ & Ha' & _ & ->)]]];
    cbn [fst snd]; try discriminate.
  intros _. assert (acc' = acc) by congruence. subst acc'.
  cbn [db_trades]. rewrite sync_fold_find.
  destruct (List.find _ (db_trades db)); reflexivity.
Qed.

(** The statement above for ticket 7 sent twice, with profits 5 and 6. *)
Lemma sync_first_write_wins_witness :
  option_map tr_trade
    (List.find (same_key 1 (Some 7%Z))
       (db_trades (snd (sync_trades "k" sample_db (Some "k"%string)
                          (sample_payload [sample_trade_in (Some 7%Z) 5;
                                           sample_trade_in (Some 7%Z) 6]) "now"))))
  = Some (trade_of_payload (sample_trade_in (Some 7%Z) 5)).
Proof.
  exact (sync_first_write_wins "k" sample_db (Some "k"%string)
           (sample_payload [sample_trade_in (Some 7%Z) 5;
                            sample_trade_in (Some 7%Z) 6]) "now"
           sample_account 7%Z 2 eq_refl eq_refl).
Defined.

(** Elements that raise are skipped without a count, and the server error
    rolls the request back: a payload with a trade whose ticket is [2^63],
    an element that is not an object and a good trade stores the good one
    only, and the same payload with a balance of [2^63] stores nothing. *)
Example sync_skips_what_raises :
  let big := sample_trade_in (Some (2 ^ 63)%Z) 5 in
  let good := sample_trade_in (Some 7%Z) 6 in
  let payload :=
    {| p_account_number := Some "1001"%string;
       p_trades := Some [JObject big; JOther; JObject good];
       p_balance := Some (JInt 1000); p_equity := None |} in
  let payload' :=
    {| p_account_number := Some "1001"%string;
       p_trades := Some [JObject big; JOther; JObject good];
       p_balance := Some (JInt (2 ^ 63)); p_equity := None |} in
  let '(resp, db') := sync_trades "k" sample_db (Some "k"%string) payload "now" in
  resp = SyncOk 1
  /\ map tr_trade (db_trades db') = [trade_of_payload good]
  /\ sync_trades "k" sample_db (Some "k"%string) payload' "now"
     = (SyncServerError, sample_db).
Proof. vm_compute. repeat split; reflexivity. Qed.
